(** * mcp-toggl: the tool-call handler of [src/index.ts] and its cache

    A shallow embedding of the MCP server in [src/index.ts]: the
    [CallToolRequestSchema] handler with its tool cases, [ensureCache],
    the [cacheWarmed] flag and the statistics report.  The modules
    [cache-manager.js], [toggl-api.js], [utils.js] and [types.js] that
    [index.ts] imports are not part of the sources at hand: the cache
    manager is modelled from the specification (marked as such below),
    the Toggl client and the report helpers are fields of an environment
    record. *)

From Stdlib Require Import ZArith Floats Uint63 Lia Sorted.
From stdpp Require Import gmap strings list pretty.

Set Warnings "-clear-no-such-hyp".

Local Open Scope string_scope.
Local Open Scope list_scope.
Local Open Scope Z_scope.

(** ** JavaScript values *)

(** A JS number as the tools carry it: ids, seconds and milliseconds are
    integers; [NaN] is what an invalid [Date] yields. *)
Inductive jsnum :=
| Num (z : Z)
| NaN.

(** The values a tool argument object can hold (the schemas declare
    numbers, strings, booleans and arrays of strings). *)
Inductive jsval :=
| VUndefined
| VNull
| VBool (b : bool)
| VNum (n : jsnum)
| VStr (s : string)
| VArr (l : list string).

#[global] Instance jsnum_eq_dec : EqDecision jsnum.
Proof. solve_decision. Defined.
#[global] Instance jsval_eq_dec : EqDecision jsval.
Proof. solve_decision. Defined.

(** ToBoolean. *)
Definition truthy (v : jsval) : bool :=
  match v with
  | VUndefined | VNull => false
  | VBool b => b
  | VNum (Num z) => negb (z =? 0)
  | VNum NaN => false
  | VStr s => negb (String.eqb s "")
  | VArr _ => true
  end.

(** [a || b] *)
Definition js_or (a b : jsval) : jsval := if truthy a then a else b.

(** [request.params.arguments]: possibly undefined; [args?.k]. *)
Definition Args := option (gmap string jsval).

Definition arg (args : Args) (k : string) : jsval :=
  match args with
  | None => VUndefined
  | Some o => default VUndefined (o !! k)
  end.

(** [x as number | undefined] for a value that the cache manager takes
    as a number: a value of another type is read as undefined. *)
Definition as_number (v : jsval) : option Z :=
  match v with
  | VNum (Num z) => Some z
  | _ => None
  end.

(** [n === v] for a number field [n]. *)
Definition strict_eq_num (n : Z) (v : jsval) : bool :=
  match v with
  | VNum (Num z) => n =? z
  | _ => false
  end.

Definition strict_eq_opt (n : option Z) (v : jsval) : bool :=
  match n with
  | Some z => strict_eq_num z v
  | None => bool_decide (v = VUndefined)
  end.

(** ** Entities of the Toggl API (fields that [index.ts] reads) *)

Record Workspace := {
  ws_id : Z;
  ws_name : string;
  ws_premium : jsval;
  ws_default_currency : jsval
}.

Record Project := {
  p_id : Z;
  p_name : string;
  p_workspace_id : Z;
  p_client_id : option Z;
  p_active : jsval;
  p_billable : jsval;
  p_color : jsval;
  p_is_private : jsval
}.

Record Client := {
  c_id : Z;
  c_name : string;
  c_workspace_id : Z;
  c_notes : jsval;
  c_archived : jsval
}.

Record TimeEntry := {
  id : Z;
  workspace_id : Z;
  project_id : option Z;
  task_id : option Z;
  description : string;
  start : string;
  stop : option string;
  duration : Z;
  tags : list string;
  billable : bool
}.

Record HydratedTimeEntry := {
  entry : TimeEntry;
  workspace_name : string;
  project_name : option string;
  client_name : option string
}.

Record Me := {
  me_id : jsval;
  me_email : option string;
  me_fullname : jsval
}.

(** ** Exceptions *)

(** A thrown [Error]: its [message] and its [stack] (undefined for an
    object that carries none). *)
Record Exn := {
  message : string;
  stack : option string
}.

(** ** Calls to the Toggl client, as they are recorded *)

Record TimeEntryRequest := {
  r_description : jsval;
  r_start : jsval;
  r_stop : jsval;
  r_duration : jsval;
  r_project_id : jsval;
  r_task_id : jsval;
  r_billable : jsval;
  r_tags : jsval
}.

Record ProjectRequest := {
  q_name : jsval;
  q_client_id : jsval;
  q_is_private : jsval;
  q_active : jsval;
  q_color : jsval;
  q_billable : jsval;
  q_estimated_hours : jsval
}.

Inductive ApiCall :=
| GetMe
| GetWorkspaces
| GetTimeEntriesForDateRange (from to : jsnum)
| GetTimeEntriesForToday
| GetTimeEntriesForWeek (weekOffset : jsval)
| GetCurrentTimeEntry
| StartTimer (ws desc pid tid tgs : jsval)
| CreateTimeEntry (ws : jsval) (req : TimeEntryRequest)
| StopTimer (ws te : Z)
| GetProjects (ws : jsval)
| GetClients (ws : jsval)
| CreateClient (ws name notes : jsval)
| CreateProject (ws : jsval) (req : ProjectRequest)
| UpdateProject (ws pid : jsval) (updates : list (string * jsval))
| UpdateTimeEntry (ws te : jsval) (updates : list (string * jsval))
| DeleteTimeEntry (ws te : jsval)
| ListWorkspaces
| ListProjects (ws : Z)
| ListClients (ws : Z)
| GetWorkspace (i : Z)
| GetProject (i : Z)
| GetClient (i : Z).

(** The calls made so far, oldest first. *)
Definition History := list ApiCall.

(** Whether a call writes upstream. *)
Definition is_write (c : ApiCall) : bool :=
  match c with
  | StartTimer _ _ _ _ _ | CreateTimeEntry _ _ | StopTimer _ _
  | CreateClient _ _ _ | CreateProject _ _ | UpdateProject _ _ _
  | UpdateTimeEntry _ _ _ | DeleteTimeEntry _ _ => true
  | _ => false
  end.

(** ** The cache manager's data *)

Inductive Kind := KWorkspace | KProject | KClient.

#[global] Instance Kind_eq_dec : EqDecision Kind.
Proof. solve_decision. Defined.

Inductive Entity :=
| EWorkspace (w : Workspace)
| EProject (p : Project)
| EClient (c : Client).

Record CacheEntry := {
  value : Entity;
  storedAt : Z
}.

Record CacheConfig := {
  ttl : Z;
  maxSize : Z;
  batchSize : Z
}.

Record CacheStats := {
  hits : Z;
  misses : Z;
  evictions : Z;
  size : Z
}.

Definition Key : Type := Kind * Z.

(** A lookup made by name resolution, as it is recorded for the order of
    resolution. *)
Inductive Lookup :=
| LHit (k : Key)
| LMiss (k : Key).

(** Modelled from the spec: the state of [CacheManager]
    ([cache-manager.js] is missing).  The Entity Store is one sequence of
    entries over all kinds, least recently used first, as [maxSize]
    bounds the total; [lookups] records the name lookups made. *)
Record CacheManager := {
  config : CacheConfig;
  store : list (Key * CacheEntry);
  stat_hits : Z;
  stat_misses : Z;
  stat_evictions : Z;
  lookups : list Lookup
}.

(** ** The server state *)

(** What [index.ts] keeps between tool calls: the [cache] object, the
    [cacheWarmed] flag; with them the calls made to the Toggl client and
    the lines written by [console.error]. *)
Record Server := {
  cache : CacheManager;
  cacheWarmed : bool;
  history : History;
  console : list (string * Exn)
}.

(** ** The monad of the handler: state and exceptions *)

Definition M (A : Type) : Type := Server -> (Exn + A) * Server.

Definition ret {A} (a : A) : M A := fun st => (inr a, st).

Definition throw {A} (e : Exn) : M A := fun st => (inl e, st).

Definition bind {A B} (m : M A) (k : A -> M B) : M B :=
  fun st =>
    match m st with
    | (inr a, st') => k a st'
    | (inl e, st') => (inl e, st')
    end.

(** [try { m } catch (error) { h error }] *)
Definition try_catch {A} (m : M A) (h : Exn -> M A) : M A :=
  fun st =>
    match m st with
    | (inr a, st') => (inr a, st')
    | (inl e, st') => h e st'
    end.

Notation "'let!' x ':=' m 'in' k" := (bind m (fun x => k))
  (at level 10, x name, m at level 100, k at level 200).
Notation "m ';;;' k" := (bind m (fun _ => k))
  (at level 100, k at level 200, right associativity).

Definition get_state : M Server := fun st => (inr st, st).
Definition modify (f : Server -> Server) : M unit := fun st => (inr tt, f st).

Fixpoint mapM {A B} (f : A -> M B) (l : list A) : M (list B) :=
  match l with
  | [] => ret []
  | a :: l' =>
      let! b := f a in
      let! bs := mapM f l' in
      ret (b :: bs)
  end.

Fixpoint forM_ {A} (f : A -> M unit) (l : list A) : M unit :=
  match l with
  | [] => ret tt
  | a :: l' => f a ;;; forM_ f l'
  end.

(** ** JSON texts *)

(** The value handed to [JSON.stringify]; a member that is [JUndef] is
    left out of the text. *)
#[warnings="-register-all"]
Inductive json :=
| JUndef
| JNull
| JBool (b : bool)
| JNumber (n : jsnum)
| JStr (s : string)
| JArr (l : list json)
| JObj (members : list (string * json)).

Definition json_of_jsval (v : jsval) : json :=
  match v with
  | VUndefined => JUndef
  | VNull => JNull
  | VBool b => JBool b
  | VNum n => JNumber n
  | VStr s => JStr s
  | VArr l => JArr (JStr <$> l)
  end.

Definition json_of_opt {A} (f : A -> json) (o : option A) : json :=
  from_option f JUndef o.

Definition JInt (z : Z) : json := JNumber (Num z).

(** A summary object of [utils.js], with its [total_seconds]. *)
Record Summary := {
  total_seconds : Z;
  summary_json : json
}.

(** ** The environment of the server *)

(** Everything [index.ts] takes from outside: the process environment,
    the [TogglAPI] client ([toggl-api.js]), the report helpers
    ([utils.js]) and the [Date] and [Error] objects of the runtime.  An
    answer of the client depends on the calls made before it, so that it
    may fail now and succeed later. *)
Record Env := {
  cacheConfig : CacheConfig;
  defaultWorkspaceId : jsval;
  (* TogglAPI *)
  api_getMe : History -> Exn + Me;
  api_getWorkspaces : History -> Exn + list Workspace;
  api_getTimeEntriesForDateRange : jsnum -> jsnum -> History -> Exn + list TimeEntry;
  api_getTimeEntriesForToday : History -> Exn + list TimeEntry;
  api_getTimeEntriesForWeek : jsval -> History -> Exn + list TimeEntry;
  api_getCurrentTimeEntry : History -> Exn + option TimeEntry;
  api_startTimer : jsval -> jsval -> jsval -> jsval -> jsval -> History -> Exn + TimeEntry;
  api_createTimeEntry : jsval -> TimeEntryRequest -> History -> Exn + TimeEntry;
  api_stopTimer : Z -> Z -> History -> Exn + TimeEntry;
  api_getProjects : jsval -> History -> Exn + list Project;
  api_getClients : jsval -> History -> Exn + list Client;
  api_createClient : jsval -> jsval -> jsval -> History -> Exn + Client;
  api_createProject : jsval -> ProjectRequest -> History -> Exn + Project;
  api_updateProject : jsval -> jsval -> list (string * jsval) -> History -> Exn + Project;
  api_updateTimeEntry : jsval -> jsval -> list (string * jsval) -> History -> Exn + TimeEntry;
  api_deleteTimeEntry : jsval -> jsval -> History -> Exn + unit;
  (* the Upstream Accessor as the cache manager uses it *)
  api_listWorkspaces : History -> Exn + list Workspace;
  api_listProjects : Z -> History -> Exn + list Project;
  api_listClients : Z -> History -> Exn + list Client;
  api_getWorkspace : Z -> History -> Exn + option Workspace;
  api_getProject : Z -> History -> Exn + option Project;
  api_getClient : Z -> History -> Exn + option Client;
  (* Error, Date and Number of the runtime *)
  captureStack : string -> option string;
  Date_of : jsval -> jsnum;
  Date_toISOString : Z -> string;
  Date_getDay : Z -> Z;
  Date_getDate : Z -> Z;
  Date_setDate : Z -> Z -> jsnum;
  StringToNumber : string -> jsnum;
  (* utils.js *)
  getDateRange : Z -> jsval -> Exn + (jsnum * jsnum);
  generateDailyReport : string -> list HydratedTimeEntry -> json;
  generateWeeklyReport : jsnum -> jsnum -> list HydratedTimeEntry -> json;
  formatReportForDisplay : json -> string;
  secondsToHours : Z -> json;
  groupEntriesByProject : list HydratedTimeEntry -> list (string * list HydratedTimeEntry);
  groupEntriesByWorkspace : list HydratedTimeEntry -> list (string * list HydratedTimeEntry);
  generateProjectSummary : string -> list HydratedTimeEntry -> Summary;
  generateWorkspaceSummary : string -> jsval -> list HydratedTimeEntry -> Summary
}.

(** [new Error(msg)] *)
Definition Error (env : Env) (msg : string) : Exn :=
  {| message := msg; stack := captureStack env msg |}.

(** A call to the Toggl client: the call is recorded, and its answer is
    the client's at the calls made before. *)
Definition record_call (c : ApiCall) (st : Server) : Server :=
  {| cache := cache st; cacheWarmed := cacheWarmed st;
     history := history st ++ [c]; console := console st |}.

Definition call {T} (c : ApiCall) (answer : History -> Exn + T) : M T :=
  fun st => (answer (history st), record_call c st).

Definition set_cache (cm : CacheManager) (st : Server) : Server :=
  {| cache := cm; cacheWarmed := cacheWarmed st;
     history := history st; console := console st |}.

Definition set_cacheWarmed (b : bool) (st : Server) : Server :=
  {| cache := cache st; cacheWarmed := b;
     history := history st; console := console st |}.

(** [console.error(label, error)] *)
Definition logged (label : string) (e : Exn) (st : Server) : Server :=
  {| cache := cache st; cacheWarmed := cacheWarmed st;
     history := history st; console := console st ++ [(label, e)] |}.

Definition console_error (label : string) (e : Exn) : M unit :=
  modify (logged label e).

(** ** The Entity Store *)

Module EntityStore.

Definition set_store (s : list (Key * CacheEntry)) (ev : Z) (cm : CacheManager)
  : CacheManager :=
  {| config := config cm; store := s;
     stat_hits := stat_hits cm; stat_misses := stat_misses cm;
     stat_evictions := ev; lookups := lookups cm |}.

Definition find (k : Key) (s : list (Key * CacheEntry)) : option CacheEntry :=
  snd <$> List.find (fun p => bool_decide (p.1 = k)) s.

Definition remove (k : Key) (s : list (Key * CacheEntry)) : list (Key * CacheEntry) :=
  filter (fun p => p.1 <> k) s.

(** Modelled from the spec: [now - storedAt < ttl]. *)
Definition fresh (now : Z) (cm : CacheManager) (e : CacheEntry) : bool :=
  now - storedAt e <? ttl (config cm).

(** Modelled from the spec: [get(kind, id)] of the Entity Store
    ([cache-manager.js] is missing).  The value only if present and
    not expired; a successful get makes the entry the most recently
    used one; an expired entry that is touched is dropped. *)
Definition get (now : Z) (k : Key) (cm : CacheManager)
  : option Entity * CacheManager :=
  match find k (store cm) with
  | Some e =>
      if fresh now cm e
      then (Some (value e),
            set_store (remove k (store cm) ++ [(k, e)]) (stat_evictions cm) cm)
      else (None, set_store (remove k (store cm)) (stat_evictions cm) cm)
  | None => (None, cm)
  end.

(** Modelled from the spec: [put(kind, id, value)] of the Entity Store
    ([cache-manager.js] is missing).  Inserts or refreshes [storedAt];
    if the size would exceed [maxSize], the least recently used entry
    over all kinds is evicted before the insertion; the entry put is
    the most recently used one. *)
Definition put (now : Z) (k : Key) (v : Entity) (cm : CacheManager)
  : CacheManager :=
  let s := remove k (store cm) in
  let e := {| value := v; storedAt := now |} in
  if maxSize (config cm) <? Z.of_nat (length s) + 1
  then match s with
       | [] => set_store [(k, e)] (stat_evictions cm) cm
       | _ :: s' => set_store (s' ++ [(k, e)]) (stat_evictions cm + 1) cm
       end
  else set_store (s ++ [(k, e)]) (stat_evictions cm) cm.

(** Modelled from the spec: [invalidate(kind, id)] and
    [invalidateAll()], independent of the TTL. *)
Definition invalidate (k : Key) (cm : CacheManager) : CacheManager :=
  set_store (remove k (store cm)) (stat_evictions cm) cm.

Definition invalidateAll (cm : CacheManager) : CacheManager :=
  set_store [] (stat_evictions cm) cm.

(** Modelled from the spec: [size()], expired entries counted until
    they are touched or evicted. *)
Definition size (cm : CacheManager) : Z := Z.of_nat (length (store cm)).

End EntityStore.

(** ** The Cache Manager *)

Definition set_counters (h m : Z) (l : list Lookup) (cm : CacheManager)
  : CacheManager :=
  {| config := config cm; store := store cm;
     stat_hits := h; stat_misses := m;
     stat_evictions := stat_evictions cm; lookups := l |}.

Definition modify_cache (f : CacheManager -> CacheManager) : M unit :=
  modify (fun st => set_cache (f (cache st)) st).

(** Modelled from the spec: the placeholder of an unresolvable name. *)
Definition placeholder : string := "Unknown".

Definition entity_name (v : Entity) : string :=
  match v with
  | EWorkspace w => ws_name w
  | EProject p => p_name p
  | EClient c => c_name c
  end.

Definition entity_client_id (v : Entity) : option Z :=
  match v with
  | EProject p => p_client_id p
  | _ => None
  end.

Definition nameOr (r : option Entity) : string :=
  from_option entity_name placeholder r.

Section Manager.

Variable env : Env.
Variable now : Z.

(** Modelled from the spec: the single-entity fetches of the Upstream
    Accessor, [getWorkspace(id)], [getProject(id)], [getClient(id)],
    each the entity or a not-found signal. *)
Definition fetch_call (k : Key) : ApiCall :=
  match k with
  | (KWorkspace, i) => GetWorkspace i
  | (KProject, i) => GetProject i
  | (KClient, i) => GetClient i
  end.

Definition fetch_answer (k : Key) (h : History) : Exn + option Entity :=
  match k with
  | (KWorkspace, i) => sum_map Datatypes.id (fmap EWorkspace) (api_getWorkspace env i h)
  | (KProject, i) => sum_map Datatypes.id (fmap EProject) (api_getProject env i h)
  | (KClient, i) => sum_map Datatypes.id (fmap EClient) (api_getClient env i h)
  end.

Definition fetchEntity (k : Key) : M (option Entity) :=
  call (fetch_call k) (fetch_answer k).

Definition count_hit (k : Key) (cm : CacheManager) : CacheManager :=
  set_counters (stat_hits cm + 1) (stat_misses cm) (lookups cm ++ [LHit k]) cm.

Definition count_miss (k : Key) (cm : CacheManager) : CacheManager :=
  set_counters (stat_hits cm) (stat_misses cm + 1) (lookups cm ++ [LMiss k]) cm.

(** Modelled from the spec: the lookup behind [getWorkspaceName],
    [getProjectName] and [getClientName] ([cache-manager.js] is
    missing).  Look up via the Entity Store and count a hit; on a miss
    count it, fetch the single entity upstream and store it; an
    upstream failure or a not-found answer leaves the name unresolved
    and is not propagated. *)
Definition resolve (k : Key) : M (option Entity) :=
  let! st := get_state in
  match EntityStore.get now k (cache st) with
  | (Some v, cm) =>
      modify_cache (fun _ => count_hit k cm) ;;;
      ret (Some v)
  | (None, cm) =>
      modify_cache (fun _ => count_miss k cm) ;;;
      try_catch
        (let! r := fetchEntity k in
         match r with
         | Some v => modify_cache (EntityStore.put now k v) ;;; ret (Some v)
         | None => ret None
         end)
        (fun _ => ret None)
  end.

Definition getWorkspaceName (i : Z) : M string :=
  let! r := resolve (KWorkspace, i) in ret (nameOr r).

Definition getProjectName (i : Z) : M string :=
  let! r := resolve (KProject, i) in ret (nameOr r).

Definition getClientName (i : Z) : M string :=
  let! r := resolve (KClient, i) in ret (nameOr r).

(** Modelled from the spec: the Hydration Pipeline for one entry
    ([cache-manager.js] is missing): the workspace name always, the
    project name only if [project_id] is present, the client name only
    if the resolved project carries a [client_id]. *)
Definition hydrateOne (e : TimeEntry) : M HydratedTimeEntry :=
  let! w := resolve (KWorkspace, workspace_id e) in
  match project_id e with
  | None =>
      ret {| entry := e; workspace_name := nameOr w;
             project_name := None; client_name := None |}
  | Some pid =>
      let! p := resolve (KProject, pid) in
      match p ≫= entity_client_id with
      | None =>
          ret {| entry := e; workspace_name := nameOr w;
                 project_name := Some (nameOr p); client_name := None |}
      | Some cid =>
          let! c := resolve (KClient, cid) in
          ret {| entry := e; workspace_name := nameOr w;
                 project_name := Some (nameOr p);
                 client_name := Some (nameOr c) |}
      end
  end.

(** Modelled from the spec: [hydrateTimeEntries(entries)]. *)
Definition hydrateTimeEntries (entries : list TimeEntry)
  : M (list HydratedTimeEntry) :=
  mapM hydrateOne entries.

(** Modelled from the spec: [warmCache(workspaceId?)]
    ([cache-manager.js] is missing).  The workspaces are fetched and
    stored (all, or the given one), then for each of them its
    projects and its clients; an upstream failure propagates and what
    was stored before it stays. *)
Definition warmCache (workspaceId : option Z) : M unit :=
  let! wss := call ListWorkspaces (api_listWorkspaces env) in
  let relevant :=
    match workspaceId with
    | Some i => filter (fun w => ws_id w = i) wss
    | None => wss
    end in
  forM_ (fun w => modify_cache
                    (EntityStore.put now (KWorkspace, ws_id w) (EWorkspace w)))
        relevant ;;;
  forM_ (fun w =>
           let! ps := call (ListProjects (ws_id w))
                           (api_listProjects env (ws_id w)) in
           forM_ (fun p => modify_cache
                             (EntityStore.put now (KProject, p_id p) (EProject p)))
                 ps ;;;
           let! cs := call (ListClients (ws_id w))
                           (api_listClients env (ws_id w)) in
           forM_ (fun c => modify_cache
                             (EntityStore.put now (KClient, c_id c) (EClient c)))
                 cs)
        relevant.

End Manager.

(** Modelled from the spec: [clearCache()] calls [invalidateAll()] and
    resets the statistics to zero. *)
Definition clearCache : M unit :=
  modify_cache (fun cm =>
    {| config := config cm; store := [];
       stat_hits := 0; stat_misses := 0; stat_evictions := 0;
       lookups := lookups cm |}).

(** Modelled from the spec: [getStats()], a snapshot of the counters. *)
Definition getStats : M CacheStats :=
  let! st := get_state in
  ret {| hits := stat_hits (cache st); misses := stat_misses (cache st);
         evictions := stat_evictions (cache st);
         size := EntityStore.size (cache st) |}.

(** [new CacheManager(cacheConfig)] and the server as it starts. *)
Definition newCacheManager (cfg : CacheConfig) : CacheManager :=
  {| config := cfg; store := [];
     stat_hits := 0; stat_misses := 0; stat_evictions := 0; lookups := [] |}.

Definition initialServer (env : Env) : Server :=
  {| cache := newCacheManager (cacheConfig env); cacheWarmed := false;
     history := []; console := [] |}.

(** ** Strings and numbers of the tool cases *)

(** A whole number as a double: the double nearest to it, a tie going
    to the even mantissa; a number within 2^53 is its own double. *)
Definition float_of_Z (z : Z) : float :=
  SF2Prim (binary_normalize prec emax z 0 false).

Definition float_of_num (n : jsnum) : float :=
  match n with
  | Num z => float_of_Z z
  | NaN => PrimFloat.nan
  end.

(** The value of a finite double is [m * 2 ^ e]; [Math.ceil] and the
    truncation towards zero, exact on that value.  [jsnum] has no
    infinities: an infinite double is read as [NaN] (both are [null] in
    a JSON text and an invalid date). *)
Definition Math_ceil (x : float) : jsnum :=
  match Prim2SF x with
  | S754_zero _ => Num 0
  | S754_finite s m e =>
      let n := if s then Z.neg m else Z.pos m in
      if 0 <=? e then Num (n * 2 ^ e)
      else Num (- ((- n) / 2 ^ (- e)))
  | _ => NaN
  end.

Definition trunc_float (x : float) : jsnum :=
  match Prim2SF x with
  | S754_zero _ => Num 0
  | S754_finite s m e =>
      let n := if s then Z.neg m else Z.pos m in
      if 0 <=? e then Num (n * 2 ^ e)
      else Num (Z.quot n (2 ^ (- e)))
  | _ => NaN
  end.

(** [a + b] and [a * b] on whole numbers: the double operation; its
    result is a whole number again. *)
Definition num_add (a b : jsnum) : jsnum :=
  trunc_float (PrimFloat.add (float_of_num a) (float_of_num b)).

Definition num_mul (a b : jsnum) : jsnum :=
  trunc_float (PrimFloat.mul (float_of_num a) (float_of_num b)).

Definition num_bind (a : jsnum) (f : Z -> jsnum) : jsnum :=
  match a with
  | Num x => f x
  | NaN => NaN
  end.

(** [Math.ceil((t1 - t0) / 1000)] on two time values, as the doubles
    compute it. *)
Definition ceil_seconds (t1 t0 : jsnum) : jsnum :=
  Math_ceil (PrimFloat.div (PrimFloat.sub (float_of_num t1) (float_of_num t0))
                           (float_of_Z 1000)).

(** The time value of [new Date(t0 + seconds * 1000)]: the double sum,
    cut to whole milliseconds, invalid beyond 8.64e15. *)
Definition time_after (t0 seconds : jsnum) : jsnum :=
  match trunc_float
          (PrimFloat.add (float_of_num t0)
             (PrimFloat.mul (float_of_num seconds) (float_of_Z 1000))) with
  | Num z => if Z.abs z <=? 8640000000000000 then Num z else NaN
  | NaN => NaN
  end.

(** ToString of a value, as a template literal applies it. *)
Definition ToString (v : jsval) : string :=
  match v with
  | VUndefined => "undefined"
  | VNull => "null"
  | VBool true => "true"
  | VBool false => "false"
  | VNum (Num z) => pretty z
  | VNum NaN => "NaN"
  | VStr s => s
  | VArr l => String.concat "," l
  end.

(** The part of [s] before the first [sep], and what follows it if
    [sep] occurs: the first two fields of [s.split(sep)] come from it. *)
Definition split_first (sep s : string) : string * option string :=
  match String.index 0 sep s with
  | Some i =>
      (String.substring 0 i s,
       Some (String.substring (S i) (String.length s - S i) s))
  | None => (s, None)
  end.

(** The double quote, and a message with a name between quotes. *)
Definition dquote : string := String (Ascii.ascii_of_nat 34) EmptyString.

Definition quoted_message (before name after : string) : string :=
  String.append before
    (String.append dquote (String.append name (String.append dquote after))).

Fixpoint repeat_string (n : nat) (s : string) : string :=
  match n with
  | O => ""
  | S n' => String.append s (repeat_string n' s)
  end.

(** [maskEmail] of the [toggl_check_auth] case. *)
Definition maskEmail (e : option string) : option string :=
  match e with
  | None => None
  | Some e =>
      if String.eqb e "" then None
      else
        let '(user, rest) := split_first "@" e in
        let domain := from_option (fun r => (split_first "@" r).1) "" rest in
        if String.eqb domain "" then Some "***"
        else
          let n := String.length user in
          let u :=
            if (n <=? 2)%nat then repeat_string n "*"
            else String.append (String.substring 0 1 user)
                   (String.append "***" (String.substring (n - 1) 1 user)) in
          Some (String.append u (String.append "@" domain))
  end.

(** A stable sort by [total_seconds], largest first:
    [summaries.sort((a, b) => b.total_seconds - a.total_seconds)].  The
    summaries are inserted from the last to the first, each before the
    first summary that is not larger, so that equal ones keep their
    order. *)
Fixpoint insert_summary (x : Summary) (l : list Summary) : list Summary :=
  match l with
  | [] => [x]
  | y :: l' =>
      if total_seconds y <=? total_seconds x then x :: l
      else y :: insert_summary x l'
  end.

Definition sort_summaries (l : list Summary) : list Summary :=
  foldr insert_summary [] l.

Definition sum_seconds (l : list Summary) : Z :=
  foldl (fun t s => t + total_seconds s) 0 l.

(** ** The objects that the tool cases serialise *)

Definition json_of_entry (e : TimeEntry) : list (string * json) :=
  [("id", JInt (id e));
   ("workspace_id", JInt (workspace_id e));
   ("project_id", json_of_opt JInt (project_id e));
   ("task_id", json_of_opt JInt (task_id e));
   ("description", JStr (description e));
   ("start", JStr (start e));
   ("stop", json_of_opt JStr (stop e));
   ("duration", JInt (duration e));
   ("tags", JArr (JStr <$> tags e));
   ("billable", JBool (billable e))].

Definition json_of_hydrated (h : HydratedTimeEntry) : json :=
  JObj (json_of_entry (entry h) ++
        [("workspace_name", JStr (workspace_name h));
         ("project_name", json_of_opt JStr (project_name h));
         ("client_name", json_of_opt JStr (client_name h))]).

Definition json_of_project (p : Project) : json :=
  JObj [("id", JInt (p_id p));
        ("name", JStr (p_name p));
        ("workspace_id", JInt (p_workspace_id p));
        ("client_id", json_of_opt JInt (p_client_id p));
        ("active", json_of_jsval (p_active p));
        ("billable", json_of_jsval (p_billable p));
        ("color", json_of_jsval (p_color p));
        ("is_private", json_of_jsval (p_is_private p))].

Definition json_of_stats (s : CacheStats) : list (string * json) :=
  [("hits", JInt (hits s));
   ("misses", JInt (misses s));
   ("evictions", JInt (evictions s));
   ("size", JInt (size s))].

(** The result of a tool call: one text item, the [JSON.stringify] of an
    object or a text as it is. *)
Inductive Text :=
| Stringify (j : json)
| Plain (s : string).

Record CallToolResult := {
  content : list Text
}.

Definition json_result (j : json) : CallToolResult :=
  {| content := [Stringify j] |}.

Definition text_result (s : string) : CallToolResult :=
  {| content := [Plain s] |}.

(** ** The hit rate of [toggl_cache_stats] *)

(** [Math.round] of a double: the nearest integer, a tie going up;
    exact on the double's value. *)
Definition Math_round (x : float) : jsnum :=
  match Prim2SF x with
  | S754_zero _ => Num 0
  | S754_finite s m e =>
      let n := if s then Z.neg m else Z.pos m in
      if 0 <=? e then Num (n * 2 ^ e)
      else Num ((2 * n + 2 ^ (- e)) / 2 ^ (- e + 1))
  | _ => NaN
  end.

(** [stats.hits + stats.misses > 0
      ? Math.round((stats.hits / (stats.hits + stats.misses)) * 100) : 0] *)
Definition hitRate (stats : CacheStats) : jsnum :=
  if hits stats + misses stats >? 0
  then Math_round
         (PrimFloat.mul
            (PrimFloat.div (float_of_Z (hits stats))
                           (float_of_Z (hits stats + misses stats)))
            (float_of_Z 100))
  else Num 0.

(** ** [index.ts]: [ensureCache] and the helpers of the tool cases *)

Inductive Tool :=
| toggl_check_auth
| toggl_get_time_entries
| toggl_get_current_entry
| toggl_start_timer
| toggl_create_entry
| toggl_stop_timer
| toggl_daily_report
| toggl_weekly_report
| toggl_project_summary
| toggl_workspace_summary
| toggl_list_workspaces
| toggl_list_projects
| toggl_list_clients
| toggl_create_client
| toggl_create_project
| toggl_update_project
| toggl_update_time_entry
| toggl_delete_time_entry
| toggl_warm_cache
| toggl_cache_stats
| toggl_clear_cache.

Definition tool_names : list (string * Tool) :=
  [("toggl_check_auth", toggl_check_auth);
   ("toggl_get_time_entries", toggl_get_time_entries);
   ("toggl_get_current_entry", toggl_get_current_entry);
   ("toggl_start_timer", toggl_start_timer);
   ("toggl_create_entry", toggl_create_entry);
   ("toggl_stop_timer", toggl_stop_timer);
   ("toggl_daily_report", toggl_daily_report);
   ("toggl_weekly_report", toggl_weekly_report);
   ("toggl_project_summary", toggl_project_summary);
   ("toggl_workspace_summary", toggl_workspace_summary);
   ("toggl_list_workspaces", toggl_list_workspaces);
   ("toggl_list_projects", toggl_list_projects);
   ("toggl_list_clients", toggl_list_clients);
   ("toggl_create_client", toggl_create_client);
   ("toggl_create_project", toggl_create_project);
   ("toggl_update_project", toggl_update_project);
   ("toggl_update_time_entry", toggl_update_time_entry);
   ("toggl_delete_time_entry", toggl_delete_time_entry);
   ("toggl_warm_cache", toggl_warm_cache);
   ("toggl_cache_stats", toggl_cache_stats);
   ("toggl_clear_cache", toggl_clear_cache)].

(** The [case] that the [switch (name)] selects, if any. *)
Definition tool_of_name (name : string) : option Tool :=
  snd <$> List.find (fun p => String.eqb p.1 name) tool_names.

Definition lift {A} (r : Exn + A) : M A := fun st => (r, st).

(** The members of an [updates] object: those arguments that are not
    [undefined], in the order of the assignments. *)
Definition updates_of (args : Args) (keys : list string) : list (string * jsval) :=
  omap (fun k => if bool_decide (arg args k = VUndefined) then None
                 else Some (k, arg args k)) keys.

Section Handler.

Variable env : Env.
(** The clock while the call is handled. *)
Variable now : Z.

(** [ensureCache] *)
Definition ensureCache : M unit :=
  let! st := get_state in
  if cacheWarmed st then ret tt
  else
    try_catch
      (warmCache env now (as_number (defaultWorkspaceId env)) ;;;
       modify (set_cacheWarmed true))
      (fun error => console_error "Failed to warm cache:" error).

(** [const workspaceId = args?.workspace_id || defaultWorkspaceId;
     if (!workspaceId) throw ...] *)
Definition workspaceId_of (args : Args) : jsval :=
  js_or (arg args "workspace_id") (defaultWorkspaceId env).

(** The request object of [toggl_create_entry]. *)
Definition create_request (args : Args) (stop duration : jsval) : TimeEntryRequest :=
  {| r_description := arg args "description";
     r_start := arg args "start";
     r_stop := stop;
     r_duration := duration;
     r_project_id := arg args "project_id";
     r_task_id := arg args "task_id";
     r_billable := arg args "billable";
     r_tags := arg args "tags" |}.

Definition requireWorkspace (args : Args) : M jsval :=
  let workspaceId := workspaceId_of args in
  if truthy workspaceId then ret workspaceId
  else throw (Error env
    "Workspace ID required (set TOGGL_DEFAULT_WORKSPACE_ID or provide workspace_id)").

Definition ToNumber (v : jsval) : jsnum :=
  match v with
  | VUndefined => NaN
  | VNull => Num 0
  | VBool b => Num (if b then 1 else 0)
  | VNum n => n
  | VStr s => StringToNumber env s
  | VArr l => StringToNumber env (String.concat "," l)
  end.

(** The time value of [new Date(t)]. *)
Definition TimeClip (t : jsnum) : jsnum :=
  match t with
  | Num z => if Z.abs z <=? 8640000000000000 then Num z else NaN
  | NaN => NaN
  end.

(** [d.toISOString()], a RangeError on an invalid date. *)
Definition toISOString (d : jsnum) : M string :=
  match d with
  | Num z => ret (Date_toISOString env z)
  | NaN => throw (Error env "Invalid time value")
  end.

Definition getDate (d : jsnum) : jsnum :=
  num_bind d (fun t => Num (Date_getDate env t)).

Definition setDate (d n : jsnum) : jsnum :=
  match d, n with
  | Num t, Num k => Date_setDate env t k
  | _, _ => NaN
  end.

(** [JSON.stringify({ success: true, message, entry: hydrated[0] })] *)
Definition entry_result (msg : string) (hydrated : list HydratedTimeEntry)
  : CallToolResult :=
  json_result (JObj [("success", JBool true);
                     ("message", JStr msg);
                     ("entry", json_of_opt json_of_hydrated (head hydrated))]).

(** The stop and the duration that [toggl_create_entry] sends. *)
Definition stop_and_duration (args : Args) : M (jsval * jsval) :=
  let stop := arg args "stop" in
  let duration := arg args "duration" in
  if truthy stop && negb (truthy duration) then
    ret (stop,
         VNum (ceil_seconds (Date_of env stop) (Date_of env (arg args "start"))))
  else if truthy duration && negb (truthy stop) then
    let! iso := toISOString
                  (time_after (Date_of env (arg args "start")) (ToNumber duration)) in
    ret (VStr iso, duration)
  else if negb (truthy stop) && negb (truthy duration) then
    throw (Error env "Either stop or duration is required")
  else ret (stop, duration).

(** The entries of [toggl_get_time_entries], before the filters. *)
Definition fetch_entries (args : Args) : M (list TimeEntry) :=
  if truthy (arg args "period") then
    let! range := lift (getDateRange env now (arg args "period")) in
    call (GetTimeEntriesForDateRange range.1 range.2)
         (api_getTimeEntriesForDateRange env range.1 range.2)
  else if truthy (arg args "start_date") || truthy (arg args "end_date") then
    let start := if truthy (arg args "start_date")
                 then Date_of env (arg args "start_date") else Num now in
    let end_ := if truthy (arg args "end_date")
                then Date_of env (arg args "end_date") else Num now in
    call (GetTimeEntriesForDateRange start end_)
         (api_getTimeEntriesForDateRange env start end_)
  else
    call GetTimeEntriesForToday (api_getTimeEntriesForToday env).

(** The entries of the two summaries: the week is the default. *)
Definition fetch_summary_entries (args : Args) : M (list TimeEntry) :=
  if truthy (arg args "period") then
    let! range := lift (getDateRange env now (arg args "period")) in
    call (GetTimeEntriesForDateRange range.1 range.2)
         (api_getTimeEntriesForDateRange env range.1 range.2)
  else if truthy (arg args "start_date") && truthy (arg args "end_date") then
    let start := Date_of env (arg args "start_date") in
    let end_ := Date_of env (arg args "end_date") in
    call (GetTimeEntriesForDateRange start end_)
         (api_getTimeEntriesForDateRange env start end_)
  else
    call (GetTimeEntriesForWeek (VNum (Num 0)))
         (api_getTimeEntriesForWeek env (VNum (Num 0))).

Definition filter_workspace (args : Args) (entries : list TimeEntry)
  : list TimeEntry :=
  if truthy (arg args "workspace_id")
  then filter (fun e => strict_eq_num (workspace_id e) (arg args "workspace_id") = true)
              entries
  else entries.

Definition filter_project (args : Args) (entries : list TimeEntry)
  : list TimeEntry :=
  if truthy (arg args "project_id")
  then filter (fun e => strict_eq_opt (project_id e) (arg args "project_id") = true)
              entries
  else entries.

Definition report_result (args : Args) (report : json) : CallToolResult :=
  if bool_decide (arg args "format" = VStr "text")
  then text_result (formatReportForDisplay env report)
  else json_result report.

(** ** The cases of the [switch] *)

Definition tool_case (t : Tool) (args : Args) : M CallToolResult :=
  match t with
  | toggl_check_auth =>
      let! me := call GetMe (api_getMe env) in
      let! workspaces := call GetWorkspaces (api_getWorkspaces env) in
      ret (json_result (JObj
        [("authenticated", JBool true);
         ("user", JObj [("id", json_of_jsval (me_id me));
                        ("email", json_of_opt JStr (maskEmail (me_email me)));
                        ("fullname", json_of_jsval (me_fullname me))]);
         ("workspaces",
          JArr ((fun w => JObj [("id", JInt (ws_id w)); ("name", JStr (ws_name w))])
                <$> workspaces))]))

  | toggl_get_time_entries =>
      ensureCache ;;;
      let! entries := fetch_entries args in
      let entries := filter_project args (filter_workspace args entries) in
      let! hydrated := hydrateTimeEntries env now entries in
      ret (json_result (JObj
        [("count", JInt (Z.of_nat (length hydrated)));
         ("entries", JArr (json_of_hydrated <$> hydrated))]))

  | toggl_get_current_entry =>
      let! entry := call GetCurrentTimeEntry (api_getCurrentTimeEntry env) in
      match entry with
      | None =>
          ret (json_result (JObj
            [("running", JBool false);
             ("message", JStr "No timer currently running")]))
      | Some entry =>
          ensureCache ;;;
          let! hydrated := hydrateTimeEntries env now [entry] in
          ret (json_result (JObj
            [("running", JBool true);
             ("entry", json_of_opt json_of_hydrated (head hydrated))]))
      end

  | toggl_start_timer =>
      let! workspaceId := requireWorkspace args in
      let! entry :=
        call (StartTimer workspaceId (arg args "description")
                (arg args "project_id") (arg args "task_id") (arg args "tags"))
             (api_startTimer env workspaceId (arg args "description")
                (arg args "project_id") (arg args "task_id") (arg args "tags")) in
      ensureCache ;;;
      let! hydrated := hydrateTimeEntries env now [entry] in
      ret (entry_result "Timer started" hydrated)

  | toggl_create_entry =>
      let! workspaceId := requireWorkspace args in
      if negb (truthy (arg args "start")) then
        throw (Error env "start is required (ISO 8601 format)")
      else
        let! sd := stop_and_duration args in
        let req := create_request args sd.1 sd.2 in
        let! entry := call (CreateTimeEntry workspaceId req)
                           (api_createTimeEntry env workspaceId req) in
        ensureCache ;;;
        let! hydrated := hydrateTimeEntries env now [entry] in
        ret (entry_result "Time entry created" hydrated)

  | toggl_stop_timer =>
      let! current := call GetCurrentTimeEntry (api_getCurrentTimeEntry env) in
      match current with
      | None =>
          ret (json_result (JObj
            [("success", JBool false);
             ("message", JStr "No timer currently running")]))
      | Some current =>
          let! stopped := call (StopTimer (workspace_id current) (id current))
                               (api_stopTimer env (workspace_id current) (id current)) in
          ensureCache ;;;
          let! hydrated := hydrateTimeEntries env now [stopped] in
          ret (entry_result "Timer stopped" hydrated)
      end

  | toggl_daily_report =>
      ensureCache ;;;
      let date := if truthy (arg args "date")
                  then Date_of env (arg args "date") else Num now in
      let nextDay := setDate date (num_add (getDate date) (Num 1)) in
      let! entries := call (GetTimeEntriesForDateRange date nextDay)
                           (api_getTimeEntriesForDateRange env date nextDay) in
      let! hydrated := hydrateTimeEntries env now entries in
      let! iso := toISOString date in
      let report := generateDailyReport env (split_first "T" iso).1 hydrated in
      ret (report_result args report)

  | toggl_weekly_report =>
      ensureCache ;;;
      let weekOffset := js_or (arg args "week_offset") (VNum (Num 0)) in
      let! entries := call (GetTimeEntriesForWeek weekOffset)
                           (api_getTimeEntriesForWeek env weekOffset) in
      let! hydrated := hydrateTimeEntries env now entries in
      let dayOfWeek := Date_getDay env now in
      let diff := Date_getDate env now - dayOfWeek
                  + (if dayOfWeek =? 0 then -6 else 1) in
      let monday := TimeClip (Date_setDate env now diff) in
      let monday := setDate monday
                      (num_add (getDate monday)
                               (num_mul (ToNumber weekOffset) (Num 7))) in
      let sunday := setDate monday (num_add (getDate monday) (Num 6)) in
      let report := generateWeeklyReport env monday sunday hydrated in
      ret (report_result args report)

  | toggl_project_summary =>
      ensureCache ;;;
      let! entries := fetch_summary_entries args in
      let entries := filter_workspace args entries in
      let! hydrated := hydrateTimeEntries env now entries in
      let byProject := groupEntriesByProject env hydrated in
      let summaries :=
        sort_summaries ((fun '(projectName, projectEntries) =>
                           generateProjectSummary env projectName projectEntries)
                        <$> byProject) in
      ret (json_result (JObj
        [("project_count", JInt (Z.of_nat (length summaries)));
         ("total_hours", secondsToHours env (sum_seconds summaries));
         ("projects", JArr (summary_json <$> summaries))]))

  | toggl_workspace_summary =>
      ensureCache ;;;
      let! entries := fetch_summary_entries args in
      let! hydrated := hydrateTimeEntries env now entries in
      let byWorkspace := groupEntriesByWorkspace env hydrated in
      let summaries :=
        sort_summaries ((fun '(wsName, wsEntries) =>
                           let wsId :=
                             js_or (from_option
                                      (fun h => VNum (Num (workspace_id (entry h))))
                                      VUndefined (head wsEntries))
                                   (VNum (Num 0)) in
                           generateWorkspaceSummary env wsName wsId wsEntries)
                        <$> byWorkspace) in
      ret (json_result (JObj
        [("workspace_count", JInt (Z.of_nat (length summaries)));
         ("total_hours", secondsToHours env (sum_seconds summaries));
         ("workspaces", JArr (summary_json <$> summaries))]))

  | toggl_list_workspaces =>
      let! workspaces := call GetWorkspaces (api_getWorkspaces env) in
      ret (json_result (JObj
        [("count", JInt (Z.of_nat (length workspaces)));
         ("workspaces",
          JArr ((fun ws => JObj
                   [("id", JInt (ws_id ws));
                    ("name", JStr (ws_name ws));
                    ("premium", json_of_jsval (ws_premium ws));
                    ("default_currency", json_of_jsval (ws_default_currency ws))])
                <$> workspaces))]))

  | toggl_list_projects =>
      let! workspaceId := requireWorkspace args in
      let! projects := call (GetProjects workspaceId)
                            (api_getProjects env workspaceId) in
      ret (json_result (JObj
        [("workspace_id", json_of_jsval workspaceId);
         ("count", JInt (Z.of_nat (length projects)));
         ("projects",
          JArr ((fun p => JObj
                   [("id", JInt (p_id p));
                    ("name", JStr (p_name p));
                    ("active", json_of_jsval (p_active p));
                    ("billable", json_of_jsval (p_billable p));
                    ("color", json_of_jsval (p_color p));
                    ("client_id", json_of_opt JInt (p_client_id p))])
                <$> projects))]))

  | toggl_list_clients =>
      let! workspaceId := requireWorkspace args in
      let! clients := call (GetClients workspaceId)
                           (api_getClients env workspaceId) in
      ret (json_result (JObj
        [("workspace_id", json_of_jsval workspaceId);
         ("count", JInt (Z.of_nat (length clients)));
         ("clients",
          JArr ((fun c => JObj
                   [("id", JInt (c_id c));
                    ("name", JStr (c_name c));
                    ("archived", json_of_jsval (c_archived c))])
                <$> clients))]))

  | toggl_create_client =>
      let! workspaceId := requireWorkspace args in
      if negb (truthy (arg args "name")) then
        throw (Error env "Client name is required")
      else
        let! newClient :=
          call (CreateClient workspaceId (arg args "name") (arg args "notes"))
               (api_createClient env workspaceId (arg args "name") (arg args "notes")) in
        (* Invalidate cache so new client appears in lookups *)
        clearCache ;;;
        modify (set_cacheWarmed false) ;;;
        ret (json_result (JObj
          [("success", JBool true);
           ("message", JStr (quoted_message "Client " (c_name newClient) " created"));
           ("client", JObj [("id", JInt (c_id newClient));
                            ("name", JStr (c_name newClient));
                            ("workspace_id", JInt (c_workspace_id newClient));
                            ("notes", json_of_jsval (c_notes newClient))])]))

  | toggl_create_project =>
      let! workspaceId := requireWorkspace args in
      if negb (truthy (arg args "name")) then
        throw (Error env "Project name is required")
      else
        let req := {| q_name := arg args "name";
                      q_client_id := arg args "client_id";
                      q_is_private := arg args "is_private";
                      q_active := arg args "active";
                      q_color := arg args "color";
                      q_billable := arg args "billable";
                      q_estimated_hours := arg args "estimated_hours" |} in
        let! project := call (CreateProject workspaceId req)
                             (api_createProject env workspaceId req) in
        (* Invalidate cache so new project appears in lookups *)
        clearCache ;;;
        modify (set_cacheWarmed false) ;;;
        ret (json_result (JObj
          [("success", JBool true);
           ("message", JStr (quoted_message "Project " (p_name project) " created"));
           ("project", json_of_project project)]))

  | toggl_update_project =>
      let! workspaceId := requireWorkspace args in
      if negb (truthy (arg args "project_id")) then
        throw (Error env "Project ID is required")
      else
        let updates :=
          updates_of args ["name"; "client_id"; "active"; "is_private";
                           "color"; "billable"; "estimated_hours"] in
        let! updatedProject :=
          call (UpdateProject workspaceId (arg args "project_id") updates)
               (api_updateProject env workspaceId (arg args "project_id") updates) in
        clearCache ;;;
        modify (set_cacheWarmed false) ;;;
        ret (json_result (JObj
          [("success", JBool true);
           ("message", JStr (quoted_message "Project " (p_name updatedProject) " updated"));
           ("project", json_of_project updatedProject)]))

  | toggl_update_time_entry =>
      let! workspaceId := requireWorkspace args in
      if negb (truthy (arg args "time_entry_id")) then
        throw (Error env "Time entry ID is required")
      else
        let entryUpdates :=
          updates_of args ["description"; "project_id"; "task_id"; "billable";
                           "start"; "stop"; "duration"; "tags"] in
        let! updatedEntry :=
          call (UpdateTimeEntry workspaceId (arg args "time_entry_id") entryUpdates)
               (api_updateTimeEntry env workspaceId (arg args "time_entry_id")
                  entryUpdates) in
        ensureCache ;;;
        let! hydrated := hydrateTimeEntries env now [updatedEntry] in
        ret (entry_result "Time entry updated" hydrated)

  | toggl_delete_time_entry =>
      let! workspaceId := requireWorkspace args in
      if negb (truthy (arg args "time_entry_id")) then
        throw (Error env "Time entry ID is required")
      else
        call (DeleteTimeEntry workspaceId (arg args "time_entry_id"))
             (api_deleteTimeEntry env workspaceId (arg args "time_entry_id")) ;;;
        ret (json_result (JObj
          [("success", JBool true);
           ("message", JStr (String.append "Time entry "
                               (String.append (ToString (arg args "time_entry_id"))
                                              " deleted")))]))

  | toggl_warm_cache =>
      let workspaceId := workspaceId_of args in
      warmCache env now (as_number workspaceId) ;;;
      modify (set_cacheWarmed true) ;;;
      let! stats := getStats in
      ret (json_result (JObj
        [("success", JBool true);
         ("message", JStr "Cache warmed successfully");
         ("stats", JObj (json_of_stats stats))]))

  | toggl_cache_stats =>
      let! stats := getStats in
      let! st := get_state in
      ret (json_result (JObj
        (json_of_stats stats ++
         [("hit_rate", JStr (String.append (ToString (VNum (hitRate stats))) "%"));
          ("cache_warmed", JBool (cacheWarmed st))])))

  | toggl_clear_cache =>
      clearCache ;;;
      modify (set_cacheWarmed false) ;;;
      ret (json_result (JObj
        [("success", JBool true);
         ("message", JStr "Cache cleared successfully")]))
  end.

(** The object of the [catch] block:
    [{ error: true, message: error.message || 'An error occurred',
       details: error.stack }] *)
Definition error_result (error : Exn) : CallToolResult :=
  json_result (JObj
    [("error", JBool true);
     ("message", JStr (if String.eqb (message error) ""
                       then "An error occurred" else message error));
     ("details", json_of_opt JStr (stack error))]).

(** The [switch (name)] inside the [try]. *)
Definition switch (name : string) (args : Args) : M CallToolResult :=
  match tool_of_name name with
  | Some t => tool_case t args
  | None => throw (Error env (String.append "Unknown tool: " name))
  end.

(** The [CallToolRequestSchema] handler. *)
Definition handler (name : string) (args : Args) : M CallToolResult :=
  try_catch (switch name args) (fun error => ret (error_result error)).

End Handler.

(** ** A fixture: one workspace, one project, one client, one entry *)

Module Fixture.

Definition acme : Workspace :=
  {| ws_id := 1; ws_name := "Acme"; ws_premium := VBool false;
     ws_default_currency := VStr "USD" |}.

Definition website : Project :=
  {| p_id := 10; p_name := "Website"; p_workspace_id := 1;
     p_client_id := Some 5; p_active := VBool true;
     p_billable := VBool false; p_color := VStr "#06aaf5";
     p_is_private := VBool false |}.

Definition initech : Client :=
  {| c_id := 5; c_name := "Initech"; c_workspace_id := 1;
     c_notes := VUndefined; c_archived := VBool false |}.

Definition entry100 : TimeEntry :=
  {| id := 100; workspace_id := 1; project_id := Some 10; task_id := None;
     description := "Layout"; start := "2026-02-17T11:30:00Z";
     stop := Some "2026-02-17T12:00:00Z"; duration := 1800;
     tags := []; billable := false |}.

Definition config1000 : CacheConfig :=
  {| ttl := 3600000; maxSize := 1000; batchSize := 100 |}.

Definition unreachable : Exn :=
  {| message := "Network unreachable"; stack := None |}.

(** An [Error] thrown without a message. *)
Definition silent : Exn :=
  {| message := EmptyString; stack := None |}.

Definition answer {A} (failure : Exn) (up : History -> bool) (a : A) (h : History)
  : Exn + A :=
  if up h then inr a else inl failure.

Definition only {A} (i j : Z) (a : A) : option A :=
  if i =? j then Some a else None.

Definition dates (v : jsval) : jsnum :=
  match v with
  | VNum n => n
  | VStr s =>
      if String.eqb s "2026-02-17T11:30:00Z" then Num 1771327800000
      else if String.eqb s "2026-02-17T12:00:00Z" then Num 1771329600000
      else NaN
  | _ => NaN
  end.

(** A Toggl account with the fixture's entities, reachable when [up]
    says so of the calls made before; [failure] is what the client
    throws otherwise. *)
Definition env (cfg : CacheConfig) (dws : jsval) (failure : Exn)
  (up : History -> bool) : Env :=
  {| cacheConfig := cfg;
     defaultWorkspaceId := dws;
     api_getMe := answer failure up {| me_id := VNum (Num 7);
                               me_email := Some "jo@example.com";
                               me_fullname := VStr "Jo" |};
     api_getWorkspaces := answer failure up [acme];
     api_getTimeEntriesForDateRange := fun _ _ => answer failure up [entry100];
     api_getTimeEntriesForToday := answer failure up [entry100];
     api_getTimeEntriesForWeek := fun _ => answer failure up [entry100];
     api_getCurrentTimeEntry := answer failure up (Some entry100);
     api_startTimer := fun _ _ _ _ _ => answer failure up entry100;
     api_createTimeEntry := fun _ _ => answer failure up entry100;
     api_stopTimer := fun _ _ => answer failure up entry100;
     api_getProjects := fun _ => answer failure up [website];
     api_getClients := fun _ => answer failure up [initech];
     api_createClient := fun _ _ _ => answer failure up initech;
     api_createProject := fun _ _ => answer failure up website;
     api_updateProject := fun _ _ _ => answer failure up website;
     api_updateTimeEntry := fun _ _ _ => answer failure up entry100;
     api_deleteTimeEntry := fun _ _ => answer failure up tt;
     api_listWorkspaces := answer failure up [acme];
     api_listProjects := fun _ => answer failure up [website];
     api_listClients := fun _ => answer failure up [initech];
     api_getWorkspace := fun i => answer failure up (only i 1 acme);
     api_getProject := fun i => answer failure up (only i 10 website);
     api_getClient := fun i => answer failure up (only i 5 initech);
     captureStack := fun _ => None;
     Date_of := dates;
     Date_toISOString := fun z => pretty z;
     Date_getDay := fun _ => 2;
     Date_getDate := fun _ => 17;
     Date_setDate := fun t k => Num (t + (k - 17) * 86400000);
     StringToNumber := fun _ => NaN;
     getDateRange := fun now0 _ => inr (Num now0, Num (now0 + 86400000));
     generateDailyReport := fun d hs => JObj [("date", JStr d)];
     generateWeeklyReport := fun _ _ _ => JObj [];
     formatReportForDisplay := fun _ => "report";
     secondsToHours := fun s => JInt (s / 3600);
     groupEntriesByProject := fun hs => [("All", hs)];
     groupEntriesByWorkspace := fun hs => [("All", hs)];
     generateProjectSummary := fun n hs =>
       {| total_seconds := 0; summary_json := JObj [("name", JStr n)] |};
     generateWorkspaceSummary := fun n _ hs =>
       {| total_seconds := 0; summary_json := JObj [("name", JStr n)] |} |}.

Definition always : History -> bool := fun _ => true.
Definition never : History -> bool := fun _ => false.

(** Unreachable for the first [n] calls, reachable after them. *)
Definition after (n : nat) : History -> bool := fun h => (n <=? length h)%nat.

Definition args_of (l : list (string * jsval)) : Args := Some (list_to_map l).

(** The account reachable, with workspace 1 as the default. *)
Definition online : Env := env config1000 (VNum (Num 1)) unreachable always.

(** The account unreachable. *)
Definition offline : Env := env config1000 (VNum (Num 1)) unreachable never.

(** The account unreachable, the client throwing without a message. *)
Definition mute : Env := env config1000 (VNum (Num 1)) silent never.

(** The account reachable, no default workspace configured. *)
Definition no_default : Env := env config1000 VUndefined unreachable always.

(** The account unreachable for the first call only. *)
Definition flaky : Env := env config1000 (VNum (Num 1)) unreachable (after 1).

(** An entry of workspace [ws] without a project, and the server after
    the hydration of three of them: a miss, a hit, a miss. *)
Definition bare (ws : Z) : TimeEntry :=
  {| id := 200; workspace_id := ws; project_id := None; task_id := None;
     description := "Call"; start := "2026-02-17T11:30:00Z";
     stop := None; duration := -1; tags := []; billable := false |}.

Definition looked_up : Server :=
  (hydrateTimeEntries online 0 [bare 1; bare 1; bare 2] (initialServer online)).2.

(** A store with room for two entries. *)
Definition config2 : CacheConfig :=
  {| ttl := 3600000; maxSize := 2; batchSize := 100 |}.

Definition entity_of (k : Key) : Entity :=
  match k.1 with
  | KWorkspace => EWorkspace acme
  | KProject => EProject website
  | KClient => EClient initech
  end.


Definition create_website : Args := args_of [("name", VStr "Website")].

(** The server after [toggl_warm_cache] at time 0. *)
Definition warmed : Server :=
  (handler online 0 "toggl_warm_cache" None (initialServer online)).2.

(** Then, at time 10, [toggl_update_time_entry] on the entry 100. *)
Definition update100 : Args :=
  args_of [("time_entry_id", VNum (Num 100)); ("description", VStr "Layout")].

Definition updated : Server :=
  (handler online 10 "toggl_update_time_entry" update100 warmed).2.

(** The account reachable, no timer running. *)
Definition idle : Env :=
  {| cacheConfig := cacheConfig online;
     defaultWorkspaceId := defaultWorkspaceId online;
     api_getMe := api_getMe online;
     api_getWorkspaces := api_getWorkspaces online;
     api_getTimeEntriesForDateRange := api_getTimeEntriesForDateRange online;
     api_getTimeEntriesForToday := api_getTimeEntriesForToday online;
     api_getTimeEntriesForWeek := api_getTimeEntriesForWeek online;
     api_getCurrentTimeEntry := fun _ => inr None;
     api_startTimer := api_startTimer online;
     api_createTimeEntry := api_createTimeEntry online;
     api_stopTimer := api_stopTimer online;
     api_getProjects := api_getProjects online;
     api_getClients := api_getClients online;
     api_createClient := api_createClient online;
     api_createProject := api_createProject online;
     api_updateProject := api_updateProject online;
     api_updateTimeEntry := api_updateTimeEntry online;
     api_deleteTimeEntry := api_deleteTimeEntry online;
     api_listWorkspaces := api_listWorkspaces online;
     api_listProjects := api_listProjects online;
     api_listClients := api_listClients online;
     api_getWorkspace := api_getWorkspace online;
     api_getProject := api_getProject online;
     api_getClient := api_getClient online;
     captureStack := captureStack online;
     Date_of := Date_of online;
     Date_toISOString := Date_toISOString online;
     Date_getDay := Date_getDay online;
     Date_getDate := Date_getDate online;
     Date_setDate := Date_setDate online;
     StringToNumber := StringToNumber online;
     getDateRange := getDateRange online;
     generateDailyReport := generateDailyReport online;
     generateWeeklyReport := generateWeeklyReport online;
     formatReportForDisplay := formatReportForDisplay online;
     secondsToHours := secondsToHours online;
     groupEntriesByProject := groupEntriesByProject online;
     groupEntriesByWorkspace := groupEntriesByWorkspace online;
     generateProjectSummary := generateProjectSummary online;
     generateWorkspaceSummary := generateWorkspaceSummary online |}.

(** A deletion of the entry 100, and a start with a zero duration. *)
Definition delete100 : Args := args_of [("time_entry_id", VNum (Num 100))].

Definition create_zero : Args :=
  args_of [("start", VStr "2026-02-17T11:30:00Z"); ("duration", VNum (Num 0))].

Definition start_layout : Args := args_of [("description", VStr "Layout")].

End Fixture.

(** ** Sequences of operations on the Entity Store *)

Inductive Op :=
| OGet (now : Z) (k : Key)
| OPut (now : Z) (k : Key) (v : Entity)
| OInvalidate (k : Key)
| OInvalidateAll.

Definition step (cm : CacheManager) (o : Op) : CacheManager :=
  match o with
  | OGet now k => (EntityStore.get now k cm).2
  | OPut now k v => EntityStore.put now k v cm
  | OInvalidate k => EntityStore.invalidate k cm
  | OInvalidateAll => EntityStore.invalidateAll cm
  end.

Definition run (ops : list Op) (cm : CacheManager) : CacheManager :=
  foldl step cm ops.

(** The keys [ks] put one after the other, [k] at time [t k] with the
    value [val k]. *)
Definition put_ops (t : Key -> Z) (val : Key -> Entity) (ks : list Key) : list Op :=
  (fun k => OPut (t k) k (val k)) <$> ks.

Definition keys (s : list (Key * CacheEntry)) : list Key := s.*1.


(** The entity that the lookup of [k] resolves to in the server [st],
    if any, and the server after the lookup. *)
Definition resolved (env : Env) (now : Z) (k : Key) (st : Server) : option Entity :=
  match (resolve env now k st).1 with
  | inr r => r
  | inl _ => None
  end.

Definition after_resolve (env : Env) (now : Z) (k : Key) (st : Server) : Server :=
  (resolve env now k st).2.


(** ** Relations between the server before and after a computation *)

(** [m] takes every server to one that [R] relates to it. *)
Definition preserves {A} (R : Server -> Server -> Prop) (m : M A) : Prop :=
  forall st, R st (m st).2.

(** A relation that holds along whatever the cache manager does to the
    server: it changes the cache and records calls. *)
Class ManagerFrame (R : Server -> Server -> Prop) := {
  frame_refl : forall st, R st st;
  frame_trans : forall a b c, R a b -> R b c -> R a c;
  frame_cache : forall cm st, R st (set_cache cm st);
  frame_call : forall c st, R st (record_call c st)
}.

(** A relation that holds along [ensureCache] as well, which writes to
    the console and sets [cacheWarmed]. *)
Class Frame (R : Server -> Server -> Prop) := {
  frame_manager :: ManagerFrame R;
  frame_log : forall l e st, R st (logged l e st);
  frame_warm : forall st, R st (set_cacheWarmed true st)
}.

(** The calls recorded only grow. *)
Definition grows (st st' : Server) : Prop :=
  exists rest, history st' = history st ++ rest.

(** [cacheWarmed], once true, stays true. *)
Definition stays_warm (st st' : Server) : Prop :=
  cacheWarmed st = true -> cacheWarmed st' = true.

(** The cache manager leaves [cacheWarmed] and the console as they are. *)
Definition same_flags (st st' : Server) : Prop :=
  cacheWarmed st' = cacheWarmed st /\ console st' = console st.

(** The tools that reset [cacheWarmed]. *)
Definition resets (t : Tool) : bool :=
  match t with
  | toggl_create_client | toggl_create_project | toggl_update_project
  | toggl_clear_cache => true
  | _ => false
  end.

(** ** The hit rate against the exact ratio *)

Definition stats_of (h m : Z) : CacheStats :=
  {| hits := h; misses := m; evictions := 0; size := 0 |}.

(** The reported rate is a whole percentage between 0 and 100, at most
    half a point away from [100 * h / (h + m)]. *)
Definition rate_ok (h m : Z) : bool :=
  match hitRate (stats_of h m) with
  | Num r =>
      (0 <=? r) && (r <=? 100) && (2 * Z.abs (r * (h + m) - 100 * h) <=? h + m)
  | NaN => false
  end.

(** [rate_ok] for all counters with [h + m <= n]. *)
Definition rates_ok (n : Z) : bool :=
  forallb (fun h => forallb (rate_ok h) (seqZ 0 (n + 1 - h))) (seqZ 0 (n + 1)).

(** ** Invariants of the server, and sequences of tool calls *)

(** [m] takes a server that satisfies [I] to one that does. *)
Definition keeps {A} (I : Server -> Prop) (m : M A) : Prop :=
  forall st, I st -> I (m st).2.

(** Every entry of the cache was stored at the time [since] or later. *)
Definition stored_since (since : Z) (st : Server) : Prop :=
  Forall (fun p => since <= storedAt p.2) (store (cache st)).

(** A tool call with the clock at which it is handled, and tool calls
    handled one after the other. *)
Record Call := {
  at_time : Z;
  tool_name : string;
  arguments : Args
}.

Definition run_calls (env : Env) (calls : list Call) (st : Server) : Server :=
  foldl (fun st c => (handler env (at_time c) (tool_name c) (arguments c) st).2)
        st calls.

(** The summaries of one total, in their order, and a list that goes
    from the largest total down. *)
Definition with_total (t : Z) (l : list Summary) : list Summary :=
  List.filter (fun s => total_seconds s =? t) l.

Definition descending (l : list Summary) : Prop :=
  StronglySorted (fun a b => total_seconds b <= total_seconds a) l.

(** The names of the entries of [tools], the array that the
    [ListToolsRequestSchema] handler returns. *)
Definition tools : list string :=
  ["toggl_check_auth"; "toggl_get_time_entries"; "toggl_get_current_entry";
   "toggl_start_timer"; "toggl_create_entry"; "toggl_stop_timer";
   "toggl_daily_report"; "toggl_weekly_report"; "toggl_project_summary";
   "toggl_workspace_summary"; "toggl_list_workspaces"; "toggl_list_projects";
   "toggl_list_clients"; "toggl_create_client"; "toggl_create_project";
   "toggl_update_project"; "toggl_update_time_entry"; "toggl_delete_time_entry";
   "toggl_warm_cache"; "toggl_cache_stats"; "toggl_clear_cache"].

(** * Properties *)

(** ** The Entity Store: lookups after removals and insertions *)

Section StoreFacts.

Implicit Types (s : list (Key * CacheEntry)) (k : Key) (e : CacheEntry).

Lemma find_cons s k k' e :
  EntityStore.find k ((k', e) :: s) =
  if bool_decide (k' = k) then Some e else EntityStore.find k s.
Proof.
  unfold EntityStore.find. simpl. by case_bool_decide.
Qed.

Lemma find_None s k : EntityStore.find k s = None <-> k ∉ keys s.
Proof.
  induction s as [|[k' e] s IH]; simpl.
  - split; [intros _; apply not_elem_of_nil | done].
  - rewrite find_cons. unfold keys in *. simpl.
    rewrite not_elem_of_cons. case_bool_decide; naive_solver.
Qed.

Lemma remove_absent s k : k ∉ keys s -> EntityStore.remove k s = s.
Proof.
  induction s as [|[k' e] s IH]; [done|].
  unfold keys, EntityStore.remove in *. simpl. rewrite not_elem_of_cons.
  intros [Hne Hs]. rewrite filter_cons. simpl.
  destruct (decide (k' <> k)); [f_equal; auto | naive_solver].
Qed.

Lemma keys_remove s k : k ∉ keys (EntityStore.remove k s).
Proof.
  unfold keys, EntityStore.remove. rewrite list_elem_of_fmap.
  intros [[k' e] [-> Hin]]. apply list_elem_of_filter in Hin. naive_solver.
Qed.

Lemma length_remove s k : (length (EntityStore.remove k s) <= length s)%nat.
Proof. apply length_filter. Qed.

Lemma NoDup_keys_remove s k : NoDup (keys s) -> NoDup (keys (EntityStore.remove k s)).
Proof.
  unfold keys, EntityStore.remove. induction s as [|[k' e] s IH]; [done|].
  simpl. rewrite NoDup_cons. intros [Hni Hnd]. rewrite filter_cons. simpl.
  destruct (decide (k' <> k)); [|auto]. simpl. apply NoDup_cons. split; [|auto].
  rewrite list_elem_of_fmap. intros [[k2 e2] [Heq Hin]]. simpl in Heq. subst k2.
  apply list_elem_of_filter in Hin. destruct Hin as [_ Hin].
  apply Hni. apply list_elem_of_fmap. by exists (k', e2).
Qed.

Lemma find_app_absent s k e s' :
  k ∉ keys s -> EntityStore.find k (s ++ (k, e) :: s') = Some e.
Proof.
  induction s as [|[k' e'] s IH]; simpl.
  - intros _. rewrite find_cons. by rewrite bool_decide_eq_true_2.
  - unfold keys in *. simpl. rewrite not_elem_of_cons. intros [Hne Hs].
    rewrite find_cons. rewrite bool_decide_eq_false_2 by done. auto.
Qed.

Lemma keys_app s s' : keys (s ++ s') = keys s ++ keys s'.
Proof. apply fmap_app. Qed.

Lemma keys_tail_subseteq s k : k ∉ keys s -> k ∉ keys (tail s).
Proof.
  destruct s as [|[k' e] s]; [done|]. unfold keys. simpl.
  rewrite not_elem_of_cons. naive_solver.
Qed.

End StoreFacts.

(** ** The Entity Store: [put], [get] and the bound on the size *)

Section EntityStoreFacts.

Implicit Types (cm : CacheManager) (k : Key) (v : Entity).

Lemma config_put now k v cm : config (EntityStore.put now k v cm) = config cm.
Proof.
  unfold EntityStore.put. case_match; [case_match|]; reflexivity.
Qed.

Lemma config_get now k cm : config (EntityStore.get now k cm).2 = config cm.
Proof.
  unfold EntityStore.get. repeat case_match; reflexivity.
Qed.

Lemma config_step cm o : config (step cm o) = config cm.
Proof.
  destruct o; simpl; auto using config_put, config_get.
Qed.

Lemma config_run ops cm : config (run ops cm) = config cm.
Proof.
  unfold run. revert cm. induction ops as [|o ops IH]; intros cm; [done|].
  simpl. rewrite IH. apply config_step.
Qed.

(** What [put] leaves in the store: the entries kept, then the entry
    put. *)
Lemma store_put now k v cm :
  exists kept,
    store (EntityStore.put now k v cm)
    = kept ++ [(k, {| value := v; storedAt := now |})] /\
    (k ∉ keys kept) /\
    (kept = EntityStore.remove k (store cm) \/
     kept = tail (EntityStore.remove k (store cm))).
Proof.
  unfold EntityStore.put.
  pose proof (keys_remove (store cm) k) as Hk.
  destruct (maxSize (config cm) <? Z.of_nat (length (EntityStore.remove k (store cm))) + 1).
  - destruct (EntityStore.remove k (store cm)) as [|x s'] eqn:E.
    + exists []. simpl. split; [done|]. split; [apply not_elem_of_nil | by left].
    + exists s'. simpl. split; [done|]. split; [|by right].
      by apply (keys_tail_subseteq (x :: s')).
  - eexists. split; [reflexivity|]. split; [done | by left].
Qed.

Lemma find_put now k v cm :
  EntityStore.find k (store (EntityStore.put now k v cm))
  = Some {| value := v; storedAt := now |}.
Proof.
  destruct (store_put now k v cm) as (kept & -> & Hk & _).
  by apply find_app_absent.
Qed.

Lemma last_put now k v cm :
  last (store (EntityStore.put now k v cm))
  = Some (k, {| value := v; storedAt := now |}).
Proof.
  destruct (store_put now k v cm) as (kept & -> & _). apply last_snoc.
Qed.

Lemma get_Some now k cm x :
  (EntityStore.get now k cm).1 = Some x ->
  exists e, EntityStore.find k (store cm) = Some e /\ value e = x /\
            now - storedAt e < ttl (config cm) /\
            store (EntityStore.get now k cm).2
            = EntityStore.remove k (store cm) ++ [(k, e)].
Proof.
  unfold EntityStore.get, EntityStore.fresh.
  destruct (EntityStore.find k (store cm)) as [e|]; [|done].
  destruct (now - storedAt e <? ttl (config cm)) eqn:E; [|done].
  simpl. intros [= <-]. exists e. repeat split; auto. lia.
Qed.

Lemma size_step cm o :
  1 <= maxSize (config cm) ->
  EntityStore.size cm <= maxSize (config cm) ->
  EntityStore.size (step cm o) <= maxSize (config cm).
Proof.
  unfold EntityStore.size. intros Hpos Hle.
  destruct o as [now k|now k v| k |]; simpl.
  - unfold EntityStore.get.
    pose proof (length_remove (store cm) k) as Hr.
    destruct (EntityStore.find k (store cm)) as [e|] eqn:Ef; [|done].
    destruct (EntityStore.fresh now cm e); simpl; [|lia].
    rewrite length_app. simpl.
    assert (length (EntityStore.remove k (store cm)) < length (store cm))%nat; [|lia].
    unfold EntityStore.remove. apply length_filter_lt with (x := (k, e)); [|naive_solver].
    unfold EntityStore.find in Ef.
    destruct (List.find _ (store cm)) as [[k' e']|] eqn:Ef'; [|done].
    simpl in Ef. injection Ef as ->. apply List.find_some in Ef'.
    destruct Ef' as [Hin Hk]. simpl in Hk. apply bool_decide_eq_true in Hk. subst k'.
    by apply list_elem_of_In.
  - unfold EntityStore.put.
    pose proof (length_remove (store cm) k) as Hr.
    destruct (maxSize (config cm) <? Z.of_nat (length (EntityStore.remove k (store cm))) + 1) eqn:E.
    + destruct (EntityStore.remove k (store cm)) as [|x s'] eqn:Er; simpl in *.
      * lia.
      * rewrite length_app. simpl. lia.
    + simpl. rewrite length_app. simpl. lia.
  - pose proof (length_remove (store cm) k). lia.
  - lia.
Qed.

Lemma size_run ops cm :
  1 <= maxSize (config cm) ->
  EntityStore.size cm <= maxSize (config cm) ->
  EntityStore.size (run ops cm) <= maxSize (config cm).
Proof.
  unfold run. revert cm. induction ops as [|o ops IH]; intros cm Hpos Hle; [done|].
  simpl. rewrite <- (config_step cm o).
  apply IH; rewrite config_step; [done|]. by apply size_step.
Qed.

Lemma NoDup_step cm o : NoDup (keys (store cm)) -> NoDup (keys (store (step cm o))).
Proof.
  intros Hnd. pose proof (fun k => NoDup_keys_remove (store cm) k Hnd) as Hr.
  assert (forall k e s, NoDup (keys s) -> k ∉ keys s -> NoDup (keys (s ++ [(k, e)]))) as Hsnoc.
  { intros k e s Hs Hk. rewrite keys_app. apply NoDup_app. split; [done|].
    split; [|apply NoDup_singleton]. simpl. intros x Hx Hx'.
    apply list_elem_of_singleton in Hx'. by subst. }
  destruct o as [now k|now k v| k |]; simpl.
  - unfold EntityStore.get. destruct (EntityStore.find k (store cm)) as [e|]; [|done].
    destruct (EntityStore.fresh now cm e); simpl; [|auto].
    apply Hsnoc; [auto | apply keys_remove].
  - destruct (store_put now k v cm) as (kept & -> & Hk & [->| ->]).
    + by apply Hsnoc.
    + apply Hsnoc; [|done]. specialize (Hr k).
      destruct (EntityStore.remove k (store cm)) as [|x s']; [done|].
      unfold keys in *. simpl in *. by apply NoDup_cons in Hr as [_ ?].
  - auto.
  - apply NoDup_nil_2.
Qed.

Lemma NoDup_run ops cm : NoDup (keys (store cm)) -> NoDup (keys (store (run ops cm))).
Proof.
  unfold run. revert cm. induction ops as [|o ops IH]; intros cm Hnd; [done|].
  simpl. apply IH. by apply NoDup_step.
Qed.

End EntityStoreFacts.

(** ** Name resolution: what a lookup does to the server *)

Section ResolveFacts.

Variable env : Env.
Variable now : Z.

(** The two paths of [resolve], written out. *)
Lemma resolve_unfold k st :
  resolve env now k st =
  match EntityStore.get now k (cache st) with
  | (Some v, cm) => (inr (Some v), set_cache (count_hit k cm) st)
  | (None, cm) =>
      let st1 := record_call (fetch_call k) (set_cache (count_miss k cm) st) in
      match fetch_answer env k (history st) with
      | inr (Some v) =>
          (inr (Some v),
           set_cache (EntityStore.put now k v (count_miss k cm)) st1)
      | _ => (inr None, st1)
      end
  end.
Proof.
  unfold resolve, bind, get_state, modify_cache, modify, try_catch, fetchEntity,
    call, ret.
  destruct (EntityStore.get now k (cache st)) as [[v|] cm]; simpl; [done|].
  destruct (fetch_answer env k (history st)) as [e|[v|]]; reflexivity.
Qed.

(** A lookup never throws. *)
Lemma resolve_total k st :
  exists r st', resolve env now k st = (inr r, st').
Proof.
  rewrite resolve_unfold.
  destruct (EntityStore.get now k (cache st)) as [[v|] cm]; simpl; [eauto|].
  destruct (fetch_answer env k (history st)) as [e|[v|]]; eauto.
Qed.

Lemma lookups_put t k v cm : lookups (EntityStore.put t k v cm) = lookups cm.
Proof. unfold EntityStore.put. repeat case_match; reflexivity. Qed.

Lemma lookups_get t k cm : lookups (EntityStore.get t k cm).2 = lookups cm.
Proof. unfold EntityStore.get. repeat case_match; reflexivity. Qed.

Lemma counters_put t k v cm :
  stat_hits (EntityStore.put t k v cm) = stat_hits cm /\
  stat_misses (EntityStore.put t k v cm) = stat_misses cm.
Proof. unfold EntityStore.put. repeat case_match; split; reflexivity. Qed.

Lemma counters_get t k cm :
  stat_hits (EntityStore.get t k cm).2 = stat_hits cm /\
  stat_misses (EntityStore.get t k cm).2 = stat_misses cm.
Proof. unfold EntityStore.get. repeat case_match; split; reflexivity. Qed.

(** A lookup that hits: the cached value, one more hit, no call. *)
Lemma resolve_hit k st v :
  (EntityStore.get now k (cache st)).1 = Some v ->
  exists st',
    resolve env now k st = (inr (Some v), st') /\
    stat_hits (cache st') = stat_hits (cache st) + 1 /\
    stat_misses (cache st') = stat_misses (cache st) /\
    lookups (cache st') = lookups (cache st) ++ [LHit k] /\
    history st' = history st.
Proof.
  intros Hget. rewrite resolve_unfold.
  pose proof (counters_get now k (cache st)) as [Hh Hm].
  pose proof (lookups_get now k (cache st)) as Hl.
  destruct (EntityStore.get now k (cache st)) as [r cm]. simpl in *. subst r.
  eexists. split; [reflexivity|]. simpl. by rewrite Hh, Hm, Hl.
Qed.

(** A lookup that misses: one more miss, one fetch; the fetched
    entity if there is one, no entity otherwise. *)
Lemma resolve_miss k st :
  (EntityStore.get now k (cache st)).1 = None ->
  exists st',
    resolve env now k st
    = (inr (match fetch_answer env k (history st) with
            | inr r => r
            | inl _ => None
            end), st') /\
    stat_hits (cache st') = stat_hits (cache st) /\
    stat_misses (cache st') = stat_misses (cache st) + 1 /\
    lookups (cache st') = lookups (cache st) ++ [LMiss k] /\
    history st' = history st ++ [fetch_call k].
Proof.
  intros Hget. rewrite resolve_unfold.
  pose proof (counters_get now k (cache st)) as [Hh Hm].
  pose proof (lookups_get now k (cache st)) as Hl.
  destruct (EntityStore.get now k (cache st)) as [r cm]. simpl in *. subst r.
  destruct (fetch_answer env k (history st)) as [e|[v|]]; simpl;
    (eexists; split; [reflexivity|]); simpl;
    rewrite ?lookups_put; simpl; rewrite ?Hh, ?Hm, ?Hl; try done.
  pose proof (counters_put now k v (count_miss k cm)) as [-> ->]. simpl.
  by rewrite Hh, Hm.
Qed.


End ResolveFacts.

(** C2: an entity put at time [t] is what [get] returns while
    [now - t < ttl]; once [ttl <= now - t] the get is the get of a store
    without the entry, and name resolution then misses, fetches upstream
    and ends as it does without the entry. *)
Theorem get_after_put (now t : Z) (k : Key) (v : Entity) (cm : CacheManager) :
  let cm1 := EntityStore.put t k v cm in
  (now - t < ttl (config cm) ->
     (EntityStore.get now k cm1).1 = Some v) /\
  (ttl (config cm) <= now - t ->
     (EntityStore.get now k cm1).1 = None /\
     EntityStore.get now k cm1
     = EntityStore.get now k (EntityStore.invalidate k cm1) /\
     forall env st, cache st = cm1 ->
       resolve env now k st
       = resolve env now k (set_cache (EntityStore.invalidate k cm1) st) /\
       history (resolve env now k st).2 = history st ++ [fetch_call k]).
Proof.
  intros cm1.
  assert (EntityStore.find k (store cm1) = Some {| value := v; storedAt := t |}) as Hf
    by apply find_put.
  assert (config cm1 = config cm) as Hc by apply config_put.
  split.
  - intros Hlt. unfold EntityStore.get, EntityStore.fresh. rewrite Hf, Hc. simpl.
    by rewrite (proj2 (Z.ltb_lt _ _) Hlt).
  - intros Hge.
    assert (EntityStore.get now k cm1
            = (None, EntityStore.invalidate k cm1)) as Hexp.
    { unfold EntityStore.get, EntityStore.fresh. rewrite Hf, Hc. simpl.
      by rewrite (proj2 (Z.ltb_ge _ _) Hge). }
    assert (EntityStore.get now k (EntityStore.invalidate k cm1)
            = (None, EntityStore.invalidate k cm1)) as Habs.
    { unfold EntityStore.get. simpl.
      by rewrite (proj2 (find_None _ _) (keys_remove (store cm1) k)). }
    split; [by rewrite Hexp|]. split; [by rewrite Hexp, Habs|].
    intros env st Hst. split.
    + rewrite !resolve_unfold. simpl. by rewrite Hst, Hexp, Habs.
    + destruct (resolve_miss env now k st) as (st' & Hr & _ & _ & _ & Hh).
      * by rewrite Hst, Hexp.
      * by rewrite Hr.
Qed.

(** ** The Entity Store: eviction *)

Section Eviction.

Implicit Types (cm : CacheManager) (k : Key) (v : Entity).

(** A new key put into a store with room: appended, nothing evicted. *)
Lemma put_fits now k v cm :
  k ∉ keys (store cm) ->
  EntityStore.size cm < maxSize (config cm) ->
  store (EntityStore.put now k v cm)
  = store cm ++ [(k, {| value := v; storedAt := now |})] /\
  stat_evictions (EntityStore.put now k v cm) = stat_evictions cm.
Proof.
  unfold EntityStore.size, EntityStore.put. intros Hk Hlt.
  rewrite (remove_absent _ _ Hk).
  by rewrite (proj2 (Z.ltb_ge _ _)) by lia.
Qed.

(** A new key put into a full store: the head of the sequence goes. *)
Lemma put_evicts now k v cm :
  1 <= maxSize (config cm) ->
  k ∉ keys (store cm) ->
  EntityStore.size cm = maxSize (config cm) ->
  exists lru rest,
    store cm = lru :: rest /\
    store (EntityStore.put now k v cm)
    = rest ++ [(k, {| value := v; storedAt := now |})] /\
    stat_evictions (EntityStore.put now k v cm) = stat_evictions cm + 1.
Proof.
  unfold EntityStore.size, EntityStore.put. intros Hpos Hk Heq.
  rewrite (remove_absent _ _ Hk).
  rewrite (proj2 (Z.ltb_lt _ _)) by lia.
  destruct (store cm) as [|lru rest]; [simpl in Heq; lia|].
  by exists lru, rest.
Qed.

Lemma run_snoc ops o cm : run (ops ++ [o]) cm = step (run ops cm) o.
Proof. unfold run. by rewrite foldl_app. Qed.

(** Distinct keys put into a new store that has room for them all. *)
Lemma fill cfg t val ks :
  NoDup ks ->
  Z.of_nat (length ks) <= maxSize cfg ->
  keys (store (run (put_ops t val ks) (newCacheManager cfg))) = ks /\
  stat_evictions (run (put_ops t val ks) (newCacheManager cfg)) = 0.
Proof.
  induction ks as [|k ks IH] using rev_ind; [done|].
  rewrite NoDup_app, length_app. simpl. intros (Hnd & Hk & _) Hlen.
  destruct IH as [IHk IHe]; [done | lia |].
  unfold put_ops. rewrite fmap_app. simpl. rewrite run_snoc. simpl.
  fold (put_ops t val ks).
  destruct (put_fits (t k) k (val k) (run (put_ops t val ks) (newCacheManager cfg)))
    as [Hs He].
  - rewrite IHk. intros Hin. apply (Hk k Hin). apply list_elem_of_singleton. done.
  - unfold EntityStore.size. rewrite config_run. simpl.
    apply (f_equal length) in IHk. unfold keys in IHk.
    rewrite length_fmap in IHk. lia.
  - rewrite Hs, He, keys_app, IHk. done.
Qed.

End Eviction.

(** C3: with a positive [maxSize], the size never exceeds [maxSize]
    after any sequence of operations on a new store; [maxSize + 1]
    distinct entries put into it cause exactly one eviction, of the
    entry put first; an eviction takes the least recently used entry
    (the head of the sequence), never the entry just put, and with room
    for two entries never the entry used last before; the entry that a
    [put] or a successful [get] touches becomes the last of the
    sequence. *)
Theorem store_bounded_lru (cfg : CacheConfig) :
  1 <= maxSize cfg ->
  (forall ops, EntityStore.size (run ops (newCacheManager cfg)) <= maxSize cfg) /\
  (forall t val ks,
     NoDup ks -> Z.of_nat (length ks) = maxSize cfg + 1 ->
     stat_evictions (run (put_ops t val ks) (newCacheManager cfg)) = 1 /\
     keys (store (run (put_ops t val ks) (newCacheManager cfg))) = tail ks) /\
  (forall ops now k v,
     let cm := run ops (newCacheManager cfg) in
     k ∉ keys (store cm) ->
     EntityStore.size cm = maxSize cfg ->
     exists lru rest,
       store cm = lru :: rest /\
       store (EntityStore.put now k v cm)
       = rest ++ [(k, {| value := v; storedAt := now |})] /\
       stat_evictions (EntityStore.put now k v cm) = stat_evictions cm + 1 /\
       lru.1 <> k /\
       (2 <= maxSize cfg ->
        exists mru, last (store cm) = Some mru /\ mru <> lru /\
                    mru ∈ store (EntityStore.put now k v cm))) /\
  (forall cm now k v,
     last (store (EntityStore.put now k v cm))
     = Some (k, {| value := v; storedAt := now |}) /\
     (forall x, (EntityStore.get now k cm).1 = Some x ->
                exists e, value e = x /\
                          last (store (EntityStore.get now k cm).2) = Some (k, e))).
Proof.
  intros Hpos. split; [|split; [|split]].
  - intros ops.
    apply (size_run ops (newCacheManager cfg)); simpl; [done|].
    unfold EntityStore.size. simpl. lia.
  - intros t val ks Hnd Hlen.
    destruct ks as [|k ks _] using rev_ind; [simpl in Hlen; lia|].
    rewrite length_app in Hlen. simpl in Hlen.
    apply NoDup_app in Hnd as (Hnd & Hk & _).
    destruct (fill cfg t val ks) as [Hks Hev]; [done | lia |].
    unfold put_ops. rewrite fmap_app. simpl. rewrite run_snoc. simpl.
    fold (put_ops t val ks).
    destruct (put_evicts (t k) k (val k) (run (put_ops t val ks) (newCacheManager cfg)))
      as (lru & rest & Hs & Hs' & He).
    + by rewrite config_run.
    + rewrite Hks. intros Hin. apply (Hk k Hin). by apply list_elem_of_singleton.
    + unfold EntityStore.size. rewrite config_run. simpl.
      pose proof (f_equal length Hks) as Hl. unfold keys in Hl.
      rewrite length_fmap in Hl. lia.
    + rewrite He, Hev, Hs', keys_app. split; [done|].
      rewrite <- Hks, Hs. done.
  - intros ops now k v cm Hk Hfull.
    destruct (put_evicts now k v cm) as (lru & rest & Hs & Hs' & He).
    + unfold cm. by rewrite config_run.
    + done.
    + unfold cm. by rewrite config_run.
    + exists lru, rest. split; [done|]. split; [done|]. split; [done|]. split.
      * intros Heq. apply Hk. rewrite Hs. unfold keys. simpl. rewrite <- Heq.
        apply list_elem_of_here.
      * intros Htwo.
        assert (NoDup (keys (store cm))) as Hnd.
        { apply NoDup_run. simpl. apply NoDup_nil_2. }
        unfold EntityStore.size in Hfull. rewrite Hs in Hfull, Hnd. simpl in Hfull.
        destruct rest as [|y rest] using rev_ind; [simpl in Hfull; lia|].
        exists y. rewrite Hs. split; [by rewrite last_cons, last_snoc|].
        unfold keys in Hnd. simpl in Hnd. rewrite fmap_app in Hnd. simpl in Hnd.
        apply NoDup_cons in Hnd as [Hni _]. split.
        -- intros ->. apply Hni. apply elem_of_app. right. apply list_elem_of_here.
        -- rewrite Hs'. apply elem_of_app. left. apply elem_of_app. right.
           apply list_elem_of_here.
  - intros cm now k v. split; [apply last_put|].
    intros x Hx. destruct (get_Some now k cm x Hx) as (e & _ & Hv & _ & Hs).
    exists e. split; [done|]. rewrite Hs. apply last_snoc.
Qed.

(** ** The monad: running a bind *)

Lemma bind_inr {A B} (m : M A) (k : A -> M B) st a st' :
  m st = (inr a, st') -> bind m k st = k a st'.
Proof. unfold bind. by intros ->. Qed.

Lemma bind_inl {A B} (m : M A) (k : A -> M B) st e st' :
  m st = (inl e, st') -> bind m k st = (inl e, st').
Proof. unfold bind. by intros ->. Qed.

Lemma resolve_run env now k st :
  resolve env now k st = (inr (resolved env now k st), after_resolve env now k st).
Proof.
  unfold resolved, after_resolve.
  destruct (resolve_total env now k st) as (r & st' & ->). reflexivity.
Qed.


(** ** Hydration *)

Section HydrationFacts.

Variable env : Env.
Variable now : Z.

(** Hydrating one entry, step by step. *)
Lemma hydrateOne_run e st :
  let k1 := (KWorkspace, workspace_id e) in
  let st1 := after_resolve env now k1 st in
  hydrateOne env now e st =
  match project_id e with
  | None =>
      (inr {| entry := e; workspace_name := nameOr (resolved env now k1 st);
              project_name := None; client_name := None |}, st1)
  | Some pid =>
      let p := resolved env now (KProject, pid) st1 in
      let st2 := after_resolve env now (KProject, pid) st1 in
      match p ≫= entity_client_id with
      | None =>
          (inr {| entry := e; workspace_name := nameOr (resolved env now k1 st);
                  project_name := Some (nameOr p); client_name := None |}, st2)
      | Some cid =>
          (inr {| entry := e; workspace_name := nameOr (resolved env now k1 st);
                  project_name := Some (nameOr p);
                  client_name := Some (nameOr (resolved env now (KClient, cid) st2)) |},
           after_resolve env now (KClient, cid) st2)
      end
  end.
Proof.
  intros k1 st1. unfold hydrateOne.
  rewrite (bind_inr _ _ _ _ _ (resolve_run env now k1 st)). fold st1.
  destruct (project_id e) as [pid|]; [|reflexivity].
  rewrite (bind_inr _ _ _ _ _ (resolve_run env now (KProject, pid) st1)). simpl.
  destruct (resolved env now (KProject, pid) st1 ≫= entity_client_id) as [cid|];
    [|reflexivity].
  by rewrite (bind_inr _ _ _ _ _ (resolve_run env now (KClient, cid) _)).
Qed.

Lemma hydrateOne_total e st :
  exists h st', hydrateOne env now e st = (inr h, st') /\ entry h = e.
Proof.
  rewrite hydrateOne_run. simpl.
  destruct (project_id e) as [pid|]; [|eauto].
  destruct (_ ≫= entity_client_id); eauto.
Qed.

Lemma mapM_total {A B} (f : A -> M B) (g : B -> A) (l : list A) st :
  (forall a st, exists b st', f a st = (inr b, st') /\ g b = a) ->
  exists bs st', mapM f l st = (inr bs, st') /\ g <$> bs = l.
Proof.
  intros Hf. revert st. induction l as [|a l IH]; intros st; simpl.
  - by exists [], st.
  - destruct (Hf a st) as (b & st1 & Hb & Hg).
    destruct (IH st1) as (bs & st2 & Hbs & Hgs).
    exists (b :: bs), st2. split; [|by rewrite fmap_cons, Hg, Hgs].
    rewrite (bind_inr _ _ _ _ _ Hb), (bind_inr _ _ _ _ _ Hbs). reflexivity.
Qed.

Lemma hydrateTimeEntries_total entries st :
  exists hs st', hydrateTimeEntries env now entries st = (inr hs, st') /\
                 entry <$> hs = entries.
Proof. apply mapM_total. apply hydrateOne_total. Qed.

End HydrationFacts.

(** C4: for every list of time entries, the empty one included,
    [hydrateTimeEntries] returns, and what it returns has the length of
    the input and, at each position, the input entry of that position
    with the name fields added. *)
Theorem hydrate_preserves_entries (env : Env) (now : Z)
    (entries : list TimeEntry) (st : Server) :
  exists hs st',
    hydrateTimeEntries env now entries st = (inr hs, st') /\
    length hs = length entries /\
    entry <$> hs = entries /\
    (forall i h, hs !! i = Some h -> entries !! i = Some (entry h)) /\
    (entries = [] -> hs = []).
Proof.
  destruct (hydrateTimeEntries_total env now entries st) as (hs & st' & Hrun & Hmap).
  exists hs, st'. split; [done|]. split; [|split; [done|split]].
  - by rewrite <- Hmap, length_fmap.
  - intros i h Hi. rewrite <- Hmap, list_lookup_fmap, Hi. reflexivity.
  - intros ->. by apply fmap_nil_inv in Hmap.
Qed.


(** ** Name resolution under upstream failures *)

Section DegradedNames.

Variable env : Env.
Variable now : Z.

(** What a lookup resolves to: the cached value on a hit, the fetched
    entity on a miss; nothing only on a miss that upstream answers with
    a failure or a not-found signal. *)
Lemma resolved_cases k st :
  match resolved env now k st with
  | Some v =>
      (EntityStore.get now k (cache st)).1 = Some v \/
      ((EntityStore.get now k (cache st)).1 = None /\
       fetch_answer env k (history st) = inr (Some v))
  | None =>
      (EntityStore.get now k (cache st)).1 = None /\
      (fetch_answer env k (history st) = inr None \/
       exists e, fetch_answer env k (history st) = inl e)
  end.
Proof.
  unfold resolved.
  destruct (EntityStore.get now k (cache st)).1 as [v|] eqn:E.
  - destruct (resolve_hit env now k st v E) as (st' & -> & _). simpl. by left.
  - destruct (resolve_miss env now k st E) as (st' & -> & _). simpl.
    destruct (fetch_answer env k (history st)) as [e|[v|]]; eauto.
Qed.

(** A miss that upstream answers with a failure: no entity, no
    exception, one more miss. *)
Lemma resolve_failure k st e :
  (EntityStore.get now k (cache st)).1 = None ->
  fetch_answer env k (history st) = inl e ->
  exists st',
    resolve env now k st = (inr None, st') /\
    stat_misses (cache st') = stat_misses (cache st) + 1 /\
    stat_hits (cache st') = stat_hits (cache st) /\
    history st' = history st ++ [fetch_call k].
Proof.
  intros Hmiss Hfail.
  destruct (resolve_miss env now k st Hmiss) as (st' & Hr & Hh & Hm & _ & Hc).
  rewrite Hfail in Hr. eauto 10.
Qed.

Lemma mapM_app {A B} (f : A -> M B) (l1 l2 : list A) st bs1 st1 :
  mapM f l1 st = (inr bs1, st1) ->
  mapM f (l1 ++ l2) st =
  match mapM f l2 st1 with
  | (inr bs2, st2) => (inr (bs1 ++ bs2), st2)
  | (inl e, st2) => (inl e, st2)
  end.
Proof.
  revert st bs1 st1. induction l1 as [|a l1 IH]; intros st bs1 st1 H; simpl in *.
  - unfold ret in H. injection H as <- <-. by destruct (mapM f l2 st) as [[?|?] ?].
  - unfold bind in *. destruct (f a st) as [[e|b] st']; [done|].
    destruct (mapM f l1 st') as [[e|bs] st''] eqn:E; [done|].
    unfold ret in H. injection H as <- <-. rewrite (IH _ _ _ E).
    by destruct (mapM f l2 st'') as [[?|?] ?].
Qed.

(** The entry at position [i] of a batch is hydrated in the server that
    the entries before it leave. *)
Lemma hydrate_at entries st hs st' i e :
  hydrateTimeEntries env now entries st = (inr hs, st') ->
  entries !! i = Some e ->
  exists h,
    hs !! i = Some h /\
    (hydrateOne env now e (hydrateTimeEntries env now (take i entries) st).2).1
    = inr h.
Proof.
  intros Hrun Hi. unfold hydrateTimeEntries in *.
  rewrite <- (take_drop_middle entries i e Hi) in Hrun.
  destruct (mapM_total (hydrateOne env now) entry (take i entries) st
              (hydrateOne_total env now)) as (bs1 & st1 & Hrun1 & Hm1).
  rewrite (mapM_app _ _ _ _ _ _ Hrun1) in Hrun. rewrite Hrun1. simpl in *.
  destruct (hydrateOne_total env now e st1) as (h & st2 & Hh & _).
  rewrite (bind_inr _ _ _ _ _ Hh) in Hrun.
  destruct (mapM_total (hydrateOne env now) entry (drop (S i) entries) st2
              (hydrateOne_total env now)) as (bs2 & st3 & Hrun2 & _).
  rewrite (bind_inr _ _ _ _ _ Hrun2) in Hrun. simpl in Hrun.
  injection Hrun as <- <-. exists h. split; [|by rewrite Hh].
  apply (f_equal length) in Hm1. rewrite length_fmap, length_take in Hm1.
  apply lookup_lt_Some in Hi.
  rewrite lookup_app_r by lia.
  assert (i - length bs1 = 0)%nat as -> by lia. reflexivity.
Qed.

End DegradedNames.

(** A miss that upstream answers with the entity: the entity, stored
    under its key at the time of the lookup, and one more miss. *)
Lemma resolve_fetched env now k st v :
  (EntityStore.get now k (cache st)).1 = None ->
  fetch_answer env k (history st) = inr (Some v) ->
  exists st',
    resolve env now k st = (inr (Some v), st') /\
    stat_misses (cache st') = stat_misses (cache st) + 1 /\
    stat_hits (cache st') = stat_hits (cache st) /\
    EntityStore.find k (store (cache st'))
    = Some {| value := v; storedAt := now |}.
Proof.
  intros Hmiss Hfetch.
  destruct (resolve_miss env now k st Hmiss) as (st' & Hr & Hh & Hm & _).
  rewrite Hfetch in Hr. exists st'. split; [done|]. split; [done|]. split; [done|].
  rewrite resolve_unfold in Hr.
  destruct (EntityStore.get now k (cache st)) as [r cm]. simpl in Hmiss. subst r.
  rewrite Hfetch in Hr. injection Hr as <-. simpl. apply find_put.
Qed.

Lemma nameOr_name r :
  nameOr r
  = match r with
    | Some (EWorkspace w) => ws_name w
    | Some (EProject p) => p_name p
    | Some (EClient c) => c_name c
    | None => "Unknown"
    end.
Proof. by destruct r as [[w|p|c]|]. Qed.

(** C5: a name lookup that misses the cache while the upstream fetch
    fails returns the placeholder without raising and counts one miss;
    a lookup that hits returns the name of the cached entity, and one
    that misses and fetches the entity returns its name and stores it;
    a lookup resolves to no entity only when it misses and upstream
    fails or does not find the entity; a batch always returns one
    hydrated entry per input, and each of its names is the name of the
    entity that its lookup resolves to, in the server that the entries
    before it leave, and the placeholder only if that lookup resolves
    to none. *)
Theorem name_lookup_degrades (env : Env) (now : Z) :
  let name_of (r : option Entity) : string :=
    match r with
    | Some (EWorkspace w) => ws_name w
    | Some (EProject p) => p_name p
    | Some (EClient c) => c_name c
    | None => "Unknown"
    end in
  (forall (get_name : Z -> M string) kind,
     (get_name, kind) ∈ [(getWorkspaceName env now, KWorkspace);
                         (getProjectName env now, KProject);
                         (getClientName env now, KClient)] ->
     (forall i st e,
        (EntityStore.get now (kind, i) (cache st)).1 = None ->
        fetch_answer env (kind, i) (history st) = inl e ->
        exists st',
          get_name i st = (inr "Unknown", st') /\
          stat_misses (cache st') = stat_misses (cache st) + 1 /\
          stat_hits (cache st') = stat_hits (cache st)) /\
     (forall i st v,
        (EntityStore.get now (kind, i) (cache st)).1 = Some v ->
        exists st',
          get_name i st = (inr (name_of (Some v)), st') /\
          stat_hits (cache st') = stat_hits (cache st) + 1 /\
          stat_misses (cache st') = stat_misses (cache st) /\
          history st' = history st)) /\
  (forall i st w,
     (EntityStore.get now (KWorkspace, i) (cache st)).1 = None ->
     api_getWorkspace env i (history st) = inr (Some w) ->
     exists st',
       getWorkspaceName env now i st = (inr (ws_name w), st') /\
       stat_misses (cache st') = stat_misses (cache st) + 1 /\
       EntityStore.find (KWorkspace, i) (store (cache st'))
       = Some {| value := EWorkspace w; storedAt := now |}) /\
  (forall i st p,
     (EntityStore.get now (KProject, i) (cache st)).1 = None ->
     api_getProject env i (history st) = inr (Some p) ->
     exists st',
       getProjectName env now i st = (inr (p_name p), st') /\
       stat_misses (cache st') = stat_misses (cache st) + 1 /\
       EntityStore.find (KProject, i) (store (cache st'))
       = Some {| value := EProject p; storedAt := now |}) /\
  (forall i st c,
     (EntityStore.get now (KClient, i) (cache st)).1 = None ->
     api_getClient env i (history st) = inr (Some c) ->
     exists st',
       getClientName env now i st = (inr (c_name c), st') /\
       stat_misses (cache st') = stat_misses (cache st) + 1 /\
       EntityStore.find (KClient, i) (store (cache st'))
       = Some {| value := EClient c; storedAt := now |}) /\
  (forall k st,
     resolved env now k st = None ->
     (EntityStore.get now k (cache st)).1 = None /\
     (fetch_answer env k (history st) = inr None \/
      exists e, fetch_answer env k (history st) = inl e)) /\
  (forall entries st,
     exists hs st',
       hydrateTimeEntries env now entries st = (inr hs, st') /\
       length hs = length entries /\
       forall i e, entries !! i = Some e ->
         exists h,
           hs !! i = Some h /\ entry h = e /\
           let st0 := (hydrateTimeEntries env now (take i entries) st).2 in
           let st1 := after_resolve env now (KWorkspace, workspace_id e) st0 in
           workspace_name h
           = name_of (resolved env now (KWorkspace, workspace_id e) st0) /\
           (project_id e = None -> project_name h = None) /\
           (forall pid, project_id e = Some pid ->
              project_name h
              = Some (name_of (resolved env now (KProject, pid) st1)) /\
              forall cid,
                resolved env now (KProject, pid) st1 ≫= entity_client_id
                = Some cid ->
                client_name h
                = Some (name_of (resolved env now (KClient, cid)
                                   (after_resolve env now (KProject, pid) st1))))).
Proof.
  intros name_of.
  assert (forall r, nameOr r = name_of r) as Hname by apply nameOr_name.
  assert (forall (get_name : Z -> M string) kind,
            (get_name, kind) ∈ [(getWorkspaceName env now, KWorkspace);
                                (getProjectName env now, KProject);
                                (getClientName env now, KClient)] ->
            forall i st,
              get_name i st
              = (inr (name_of (resolved env now (kind, i) st)),
                 after_resolve env now (kind, i) st)) as Hget.
  { intros get_name kind Hin i st. rewrite !elem_of_cons in Hin.
    destruct Hin as [[= -> ->]|[[= -> ->]|[[= -> ->]|Hin]]];
      [| | |by apply elem_of_nil in Hin];
      unfold getWorkspaceName, getProjectName, getClientName;
      by rewrite (bind_inr _ _ _ _ _ (resolve_run env now _ st)), Hname. }
  assert (forall k st v,
            (EntityStore.get now k (cache st)).1 = None ->
            fetch_answer env k (history st) = inr (Some v) ->
            resolved env now k st = Some v /\
            stat_misses (cache (after_resolve env now k st))
            = stat_misses (cache st) + 1 /\
            EntityStore.find k (store (cache (after_resolve env now k st)))
            = Some {| value := v; storedAt := now |}) as Hfetched.
  { intros k st v Hmiss Hfetch. unfold resolved, after_resolve.
    destruct (resolve_fetched env now k st v Hmiss Hfetch)
      as (st' & -> & Hm & _ & Hf). done. }
  split_and!.
  - intros get_name kind Hin. split.
    + intros i st e Hmiss Hfail. rewrite (Hget get_name kind Hin).
      unfold resolved, after_resolve.
      destruct (resolve_failure env now (kind, i) st e Hmiss Hfail)
        as (st' & -> & Hm & Hh & _). simpl. eauto.
    + intros i st v Hhit. rewrite (Hget get_name kind Hin).
      unfold resolved, after_resolve.
      destruct (resolve_hit env now (kind, i) st v Hhit)
        as (st' & -> & Hh & Hm & _ & Hc). simpl. eauto 10.
  - intros i st w Hmiss Hfetch.
    rewrite (Hget (getWorkspaceName env now) KWorkspace) by set_solver.
    destruct (Hfetched (KWorkspace, i) st (EWorkspace w) Hmiss) as (-> & Hm & Hf).
    { simpl. by rewrite Hfetch. }
    eauto.
  - intros i st p Hmiss Hfetch.
    rewrite (Hget (getProjectName env now) KProject) by set_solver.
    destruct (Hfetched (KProject, i) st (EProject p) Hmiss) as (-> & Hm & Hf).
    { simpl. by rewrite Hfetch. }
    eauto.
  - intros i st c Hmiss Hfetch.
    rewrite (Hget (getClientName env now) KClient) by set_solver.
    destruct (Hfetched (KClient, i) st (EClient c) Hmiss) as (-> & Hm & Hf).
    { simpl. by rewrite Hfetch. }
    eauto.
  - intros k st Hnone. pose proof (resolved_cases env now k st) as Hc.
    by rewrite Hnone in Hc.
  - intros entries st.
    destruct (hydrateTimeEntries_total env now entries st) as (hs & st' & Hrun & Hmap).
    exists hs, st'. split; [done|]. split; [by rewrite <- Hmap, length_fmap|].
    intros i e Hi.
    destruct (hydrate_at env now entries st hs st' i e Hrun Hi) as (h & Hh & Hone).
    exists h. split; [done|].
    rewrite hydrateOne_run in Hone. simpl in Hone.
    destruct (project_id e) as [pid|] eqn:Ep.
    + destruct (resolved env now (KProject, pid) _ ≫= entity_client_id)
        as [cid|] eqn:Ec; simpl in Hone; injection Hone as <-; simpl;
        rewrite !Hname; split_and!; try done.
      * intros pid' [= <-]. split; [done|]. intros cid' Hc'.
        rewrite Ec in Hc'. by injection Hc' as <-.
      * intros pid' [= <-]. split; [done|]. intros cid' Hc'.
        rewrite Ec in Hc'. done.
    + simpl in Hone. injection Hone as <-. simpl. rewrite !Hname.
      split_and!; done.
Qed.

(** ** The handler: every exception ends in a response *)

(** C8, as the code has it: for every tool name and argument object
    the handler returns a response and does not throw; the response is
    the one of the tool case if it returns, and if it throws, the object
    with [error: true], the [message] of the exception, or the text
    [An error occurred] if that message is empty, and its [stack] as
    [details]; an unknown tool name is answered so with the message
    [Unknown tool: name]. *)
Theorem handler_catches (env : Env) (now : Z) (name : string) (args : Args)
    (st : Server) :
  exists r,
    handler env now name args st = (inr r, (switch env now name args st).2) /\
    match (switch env now name args st).1 with
    | inr r0 => r = r0
    | inl error =>
        r = json_result (JObj
              [("error", JBool true);
               ("message", JStr (if String.eqb (message error) ""
                                 then "An error occurred" else message error));
               ("details", json_of_opt JStr (stack error))])
    end /\
    (tool_of_name name = None ->
     (switch env now name args st).2 = st /\
     r = json_result (JObj
           [("error", JBool true);
            ("message", JStr (String.append "Unknown tool: " name));
            ("details",
             json_of_opt JStr (captureStack env (String.append "Unknown tool: " name)))])).
Proof.
  unfold handler, try_catch.
  destruct (switch env now name args st) as [[error|r0] st'] eqn:E; simpl.
  - eexists. split; [reflexivity|]. split; [reflexivity|].
    intros Hnone. unfold switch in E. rewrite Hnone in E.
    unfold throw in E. injection E as <- <-. split; reflexivity.
  - exists r0. split; [reflexivity|]. split; [reflexivity|].
    intros Hnone. unfold switch in E. rewrite Hnone in E. discriminate.
Qed.

(** C8 as stated fails where the exception has an empty message: the
    client throwing such an [Error] in [toggl_check_auth], the response
    carries [An error occurred] and not the exception's message. *)
Lemma handler_empty_message :
  switch Fixture.mute 0 "toggl_check_auth" None (initialServer Fixture.mute)
  = (inl {| message := EmptyString; stack := None |},
     record_call GetMe (initialServer Fixture.mute)) /\
  handler Fixture.mute 0 "toggl_check_auth" None (initialServer Fixture.mute)
  = (inr (json_result (JObj [("error", JBool true);
                              ("message", JStr "An error occurred");
                              ("details", JUndef)])),
     record_call GetMe (initialServer Fixture.mute)) /\
  "An error occurred" <> EmptyString.
Proof. split; [|split]; [vm_compute; reflexivity .. | discriminate]. Qed.

(** ** What the computations leave unchanged *)

#[global] Instance grows_manager : ManagerFrame grows.
Proof.
  split; unfold grows; simpl.
  - intros st. exists []. by rewrite app_nil_r.
  - intros a b c [r1 H1] [r2 H2]. exists (r1 ++ r2). by rewrite H2, H1, app_assoc.
  - intros cm st. exists []. by rewrite app_nil_r.
  - intros c st. by exists [c].
Qed.

#[global] Instance grows_frame : Frame grows.
Proof.
  split; [apply _ | |]; unfold grows; simpl.
  - intros l e st. exists []. by rewrite app_nil_r.
  - intros st. exists []. by rewrite app_nil_r.
Qed.

#[global] Instance stays_warm_manager : ManagerFrame stays_warm.
Proof. split; unfold stays_warm; simpl; auto. Qed.

#[global] Instance stays_warm_frame : Frame stays_warm.
Proof. split; [apply _ | |]; unfold stays_warm; simpl; auto. Qed.

#[global] Instance same_flags_manager : ManagerFrame same_flags.
Proof.
  split; unfold same_flags; simpl; auto.
  intros a b c [H1 H2] [H3 H4]. split; congruence.
Qed.

Section ManagerFrameFacts.

Context (R : Server -> Server -> Prop) `{!ManagerFrame R}.

Lemma preserves_ret {A} (a : A) : preserves R (ret a).
Proof. intros st. apply frame_refl. Qed.

Lemma preserves_throw {A} (e : Exn) : preserves R (@throw A e).
Proof. intros st. apply frame_refl. Qed.

Lemma preserves_lift {A} (r : Exn + A) : preserves R (lift r).
Proof. intros st. apply frame_refl. Qed.

Lemma preserves_get_state : preserves R get_state.
Proof. intros st. apply frame_refl. Qed.

Lemma preserves_bind {A B} (m : M A) (k : A -> M B) :
  preserves R m -> (forall a, preserves R (k a)) -> preserves R (bind m k).
Proof.
  intros Hm Hk st. unfold bind. specialize (Hm st).
  destruct (m st) as [[e|a] st']; simpl in *; [done|].
  eapply frame_trans; [exact Hm | apply Hk].
Qed.

Lemma preserves_try_catch {A} (m : M A) (h : Exn -> M A) :
  preserves R m -> (forall e, preserves R (h e)) -> preserves R (try_catch m h).
Proof.
  intros Hm Hh st. unfold try_catch. specialize (Hm st).
  destruct (m st) as [[e|a] st']; simpl in *; [|done].
  eapply frame_trans; [exact Hm | apply Hh].
Qed.

Lemma preserves_mapM {A B} (f : A -> M B) (l : list A) :
  (forall a, preserves R (f a)) -> preserves R (mapM f l).
Proof.
  intros Hf. induction l as [|a l IH]; simpl; [apply preserves_ret|].
  apply preserves_bind; [done|]. intros b.
  apply preserves_bind; [done|]. intros bs. apply preserves_ret.
Qed.

Lemma preserves_forM_ {A} (f : A -> M unit) (l : list A) :
  (forall a, preserves R (f a)) -> preserves R (forM_ f l).
Proof.
  intros Hf. induction l as [|a l IH]; simpl; [apply preserves_ret|].
  by apply preserves_bind.
Qed.

Lemma preserves_call {T} (c : ApiCall) (answer : History -> Exn + T) :
  preserves R (call c answer).
Proof. intros st. apply frame_call. Qed.

Lemma preserves_modify_cache (f : CacheManager -> CacheManager) :
  preserves R (modify_cache f).
Proof. intros st. apply frame_cache. Qed.

Lemma preserves_clearCache : preserves R clearCache.
Proof. apply preserves_modify_cache. Qed.

Lemma preserves_getStats : preserves R getStats.
Proof.
  apply preserves_bind; [apply preserves_get_state|]. intros st. apply preserves_ret.
Qed.

Lemma preserves_resolve env now k : preserves R (resolve env now k).
Proof.
  intros st. rewrite resolve_unfold.
  destruct (EntityStore.get now k (cache st)) as [[v|] cm]; simpl.
  - apply frame_cache.
  - assert (R st (record_call (fetch_call k) (set_cache (count_miss k cm) st))) as H1.
    { eapply frame_trans; [apply frame_cache | apply frame_call]. }
    destruct (fetch_answer env k (history st)) as [e|[v|]]; simpl; try done.
    eapply frame_trans; [exact H1 | apply frame_cache].
Qed.

Lemma preserves_hydrateTimeEntries env now entries :
  preserves R (hydrateTimeEntries env now entries).
Proof.
  apply preserves_mapM. intros e. unfold hydrateOne.
  apply preserves_bind; [apply preserves_resolve|]. intros w.
  destruct (project_id e) as [pid|]; [|apply preserves_ret].
  apply preserves_bind; [apply preserves_resolve|]. intros p.
  destruct (p ≫= entity_client_id) as [cid|]; [|apply preserves_ret].
  apply preserves_bind; [apply preserves_resolve|]. intros c. apply preserves_ret.
Qed.

Lemma preserves_warmCache env now d : preserves R (warmCache env now d).
Proof.
  unfold warmCache.
  apply preserves_bind; [apply preserves_call|]. intros wss.
  apply preserves_bind.
  { apply preserves_forM_. intros w. apply preserves_modify_cache. }
  intros _. apply preserves_forM_. intros w.
  apply preserves_bind; [apply preserves_call|]. intros ps.
  apply preserves_bind.
  { apply preserves_forM_. intros p. apply preserves_modify_cache. }
  intros _. apply preserves_bind; [apply preserves_call|]. intros cs.
  apply preserves_forM_. intros c. apply preserves_modify_cache.
Qed.

End ManagerFrameFacts.

Section FrameFacts.

Context (R : Server -> Server -> Prop) `{!Frame R}.

Lemma preserves_console_error (l : string) (e : Exn) :
  preserves R (console_error l e).
Proof. intros st. apply frame_log. Qed.

Lemma preserves_warmed : preserves R (modify (set_cacheWarmed true)).
Proof. intros st. apply frame_warm. Qed.

Lemma preserves_ensureCache env now : preserves R (ensureCache env now).
Proof.
  unfold ensureCache.
  apply (preserves_bind R); [apply (preserves_get_state R)|]. intros st.
  destruct (cacheWarmed st); [apply (preserves_ret R)|].
  apply (preserves_try_catch R).
  - apply (preserves_bind R); [apply (preserves_warmCache R)|]. intros _.
    apply preserves_warmed.
  - intros e. apply preserves_console_error.
Qed.

Lemma preserves_requireWorkspace env args : preserves R (requireWorkspace env args).
Proof.
  unfold requireWorkspace. case_match; [apply (preserves_ret R) | apply (preserves_throw R)].
Qed.

Lemma preserves_toISOString env d : preserves R (toISOString env d).
Proof. destruct d; [apply (preserves_ret R) | apply (preserves_throw R)]. Qed.

Lemma preserves_stop_and_duration env args : preserves R (stop_and_duration env args).
Proof.
  unfold stop_and_duration. repeat case_match; try apply (preserves_ret R);
    try apply (preserves_throw R).
  apply (preserves_bind R); [apply preserves_toISOString|]. intros iso. apply (preserves_ret R).
Qed.

Lemma preserves_fetch_entries env now args : preserves R (fetch_entries env now args).
Proof.
  unfold fetch_entries. repeat case_match; try apply (preserves_call R).
  apply (preserves_bind R); [apply (preserves_lift R)|]. intros r. apply (preserves_call R).
Qed.

Lemma preserves_fetch_summary_entries env now args :
  preserves R (fetch_summary_entries env now args).
Proof.
  unfold fetch_summary_entries. repeat case_match; try apply (preserves_call R).
  apply (preserves_bind R); [apply (preserves_lift R)|]. intros r. apply (preserves_call R).
Qed.

End FrameFacts.

(** ** The tool cases and the frame relations *)

Ltac frame_step :=
  lazymatch goal with
  | |- preserves ?R (if ?b then _ else _) => destruct b
  | |- preserves ?R (match ?x with _ => _ end) => destruct x
  | |- preserves ?R _ =>
      first
        [ apply (preserves_ret R) | apply (preserves_throw R)
        | apply (preserves_call R)
        | apply (preserves_ensureCache R)
        | apply (preserves_hydrateTimeEntries R)
        | apply (preserves_warmCache R) | apply (preserves_clearCache R)
        | apply (preserves_getStats R) | apply (preserves_get_state R)
        | apply (preserves_requireWorkspace R)
        | apply (preserves_stop_and_duration R)
        | apply (preserves_fetch_entries R)
        | apply (preserves_fetch_summary_entries R)
        | apply (preserves_toISOString R) | apply (preserves_warmed R)
        | apply (preserves_bind R); [|intros ?] ]
  end.

(** A tool case leaves a frame relation in place, if the relation
    allows the reset of [cacheWarmed] where the tool resets it. *)
Lemma preserves_tool_case (R : Server -> Server -> Prop) `{!Frame R}
    env now t args :
  (resets t = true -> forall st, R st (set_cacheWarmed false st)) ->
  preserves R (tool_case env now t args).
Proof.
  intros Hreset.
  assert (resets t = true -> preserves R (modify (set_cacheWarmed false))) as Hm.
  { intros Ht st. by apply Hreset. }
  destruct t; cbv beta iota zeta delta [tool_case];
    repeat first [frame_step | apply Hm; reflexivity].
Qed.

Lemma preserves_handler (R : Server -> Server -> Prop) `{!Frame R}
    env now name args :
  (forall st, R st (set_cacheWarmed false st)) ->
  preserves R (handler env now name args).
Proof.
  intros Hreset. unfold handler. apply (preserves_try_catch R).
  - unfold switch. destruct (tool_of_name name) as [t|].
    + apply (@preserves_tool_case R _ env now t args). intros _. exact Hreset.
    + apply (preserves_throw R).
  - intros e. apply (preserves_ret R).
Qed.

(** ** [toggl_create_entry]: the stop and the duration sent upstream *)

Lemma handler_run env now name args st :
  handler env now name args st
  = (inr (match (switch env now name args st).1 with
          | inr r => r
          | inl error => error_result error
          end),
     (switch env now name args st).2).
Proof.
  unfold handler, try_catch. by destruct (switch env now name args st) as [[e|r] st'].
Qed.

Lemma requireWorkspace_ok env args st :
  truthy (workspaceId_of env args) = true ->
  requireWorkspace env args st = (inr (workspaceId_of env args), st).
Proof. unfold requireWorkspace. simpl. by intros ->. Qed.

Lemma requireWorkspace_missing env args st :
  truthy (workspaceId_of env args) = false ->
  requireWorkspace env args st
  = (inl (Error env
       "Workspace ID required (set TOGGL_DEFAULT_WORKSPACE_ID or provide workspace_id)"),
     st).
Proof. unfold requireWorkspace. simpl. by intros ->. Qed.

(** [Math_ceil] is the ceiling of the double's value [m * 2 ^ e]. *)
Lemma Math_ceil_spec x s m e :
  Prim2SF x = S754_finite s m e ->
  exists c, Math_ceil x = Num c /\
    let n := if s then Z.neg m else Z.pos m in
    if 0 <=? e then c = n * 2 ^ e
    else (c - 1) * 2 ^ (- e) < n <= c * 2 ^ (- e).
Proof.
  intros Hx. unfold Math_ceil. rewrite Hx.
  destruct (0 <=? e) eqn:He; [by eexists|].
  eexists. split; [reflexivity|]. simpl.
  apply Z.leb_gt in He.
  set (n := if s then Z.neg m else Z.pos m).
  assert (0 < 2 ^ (- e)) as Hpow by (apply Z.pow_pos_nonneg; lia).
  pose proof (Z.div_mod (- n) (2 ^ (- e)) ltac:(lia)).
  pose proof (Z.mod_pos_bound (- n) (2 ^ (- e)) Hpow). nia.
Qed.



(** The doubles at work: half an hour gives 1800 seconds; a difference
    beyond 2^53 ms is rounded before it is divided; a start of which
    the date is invalid gives [NaN]. *)
Lemma ceil_seconds_examples :
  ceil_seconds (Num 1771329600000) (Num 1771327800000) = Num 1800 /\
  ceil_seconds (Num 1771327800001) (Num 1771327800000) = Num 1 /\
  ceil_seconds (Num 8640000000000000) (Num (-367199254741001))
  = Num 9007199254741 /\
  ceil_seconds (Num 1771329600000) NaN = NaN.
Proof. vm_compute. repeat split; reflexivity. Qed.

(** X5: a duration of zero given without a stop counts as no duration: the
    call answers with the error and nothing is sent upstream. *)
Lemma create_entry_zero_duration env now args st :
  truthy (workspaceId_of env args) = true ->
  truthy (arg args "start") = true ->
  arg args "stop" = VUndefined ->
  arg args "duration" = VNum (Num 0) ->
  handler env now "toggl_create_entry" args st
  = (inr (error_result (Error env "Either stop or duration is required")), st).
Proof.
  intros Hws Hstart Hstop Hdur. rewrite handler_run. unfold switch.
  change (tool_of_name "toggl_create_entry") with (Some toggl_create_entry).
  cbv beta iota zeta delta [tool_case].
  rewrite (bind_inr _ _ _ _ _ (requireWorkspace_ok env args st Hws)).
  rewrite Hstart. cbn [negb].
  unfold stop_and_duration. rewrite Hstop, Hdur. reflexivity.
Qed.


(** ** Writes and the invalidation of the cache *)

Lemma resets_clear env now t args st r st' :
  resets t = true ->
  tool_case env now t args st = (inr r, st') ->
  store (cache st') = [] /\ cacheWarmed st' = false /\
  stat_hits (cache st') = 0 /\ stat_misses (cache st') = 0.
Proof.
  intros Ht. destruct t; try discriminate Ht; cbv beta iota zeta delta [tool_case];
    unfold bind, requireWorkspace, call, clearCache, modify_cache, modify, ret, throw;
    intros H; repeat case_match; simplify_eq; done.
Qed.

Lemma write_recorded env now t args st r st' :
  t ∈ [toggl_create_client; toggl_create_project; toggl_update_project] ->
  tool_case env now t args st = (inr r, st') ->
  exists c, is_write c = true /\ history st' = history st ++ [c].
Proof.
  rewrite !elem_of_cons, elem_of_nil.
  intros [->|[->|[->|[]]]]; cbv beta iota zeta delta [tool_case];
    unfold bind, requireWorkspace, call, clearCache, modify_cache, modify, ret, throw;
    intros H; repeat case_match; simplify_eq; simpl; eexists; split; try reflexivity;
    reflexivity.
Qed.

Lemma get_empty now k cm : store cm = [] -> (EntityStore.get now k cm).1 = None.
Proof. unfold EntityStore.get. by intros ->. Qed.

(** *** Entries stored since a given time *)

Section Keeps.

Context (Inv : Server -> Prop).

Lemma keeps_ret {A} (a : A) : keeps Inv (ret a).
Proof. by intros st. Qed.

Lemma keeps_throw {A} (e : Exn) : keeps Inv (@throw A e).
Proof. by intros st. Qed.

Lemma keeps_lift {A} (r : Exn + A) : keeps Inv (lift r).
Proof. by intros st. Qed.

Lemma keeps_get_state : keeps Inv get_state.
Proof. by intros st. Qed.

Lemma keeps_bind {A B} (m : M A) (k : A -> M B) :
  keeps Inv m -> (forall a, keeps Inv (k a)) -> keeps Inv (bind m k).
Proof.
  intros Hm Hk st Hst. unfold bind. specialize (Hm st Hst).
  destruct (m st) as [[e|a] st1]; simpl in *; [done|]. by apply Hk.
Qed.

Lemma keeps_try_catch {A} (m : M A) (h : Exn -> M A) :
  keeps Inv m -> (forall e, keeps Inv (h e)) -> keeps Inv (try_catch m h).
Proof.
  intros Hm Hh st Hst. unfold try_catch. specialize (Hm st Hst).
  destruct (m st) as [[e|a] st1]; simpl in *; [|done]. by apply Hh.
Qed.

Lemma keeps_mapM {A B} (f : A -> M B) (l : list A) :
  (forall a, keeps Inv (f a)) -> keeps Inv (mapM f l).
Proof.
  intros Hf. induction l as [|a l IH]; simpl; [apply keeps_ret|].
  apply keeps_bind; [done|]. intros b.
  apply keeps_bind; [done|]. intros bs. apply keeps_ret.
Qed.

Lemma keeps_forM_ {A} (f : A -> M unit) (l : list A) :
  (forall a, keeps Inv (f a)) -> keeps Inv (forM_ f l).
Proof.
  intros Hf. induction l as [|a l IH]; simpl; [apply keeps_ret|].
  by apply keeps_bind.
Qed.

End Keeps.

Section StoredSince.

Variable env : Env.
Variable since now : Z.
Hypothesis later : since <= now.

Lemma since_remove k (s : list (Key * CacheEntry)) :
  Forall (fun p => since <= storedAt p.2) s ->
  Forall (fun p => since <= storedAt p.2) (EntityStore.remove k s).
Proof.
  rewrite !Forall_forall. intros Hs p Hp. apply Hs.
  unfold EntityStore.remove in Hp. by apply list_elem_of_filter in Hp as [_ ?].
Qed.

Lemma since_get t k cm :
  Forall (fun p => since <= storedAt p.2) (store cm) ->
  Forall (fun p => since <= storedAt p.2) (store (EntityStore.get t k cm).2).
Proof.
  intros Hs. unfold EntityStore.get.
  destruct (EntityStore.find k (store cm)) as [e|] eqn:Ef; [|done].
  assert (since <= storedAt e) as He.
  { unfold EntityStore.find in Ef.
    destruct (List.find _ (store cm)) as [[k' e']|] eqn:Ef'; [|done].
    simpl in Ef. injection Ef as ->. apply List.find_some in Ef' as [Hin _].
    rewrite Forall_forall in Hs. apply (Hs (k', e)). by apply list_elem_of_In. }
  destruct (EntityStore.fresh t cm e); simpl; [|by apply since_remove].
  apply Forall_app. split; [by apply since_remove|]. by apply Forall_singleton.
Qed.

Lemma since_put k v cm :
  Forall (fun p => since <= storedAt p.2) (store cm) ->
  Forall (fun p => since <= storedAt p.2) (store (EntityStore.put now k v cm)).
Proof.
  intros Hs. destruct (store_put now k v cm) as (kept & -> & _ & Hkept).
  apply Forall_app. split; [|by apply Forall_singleton].
  pose proof (since_remove k _ Hs) as Hr.
  destruct Hkept as [->| ->]; [done|].
  destruct (EntityStore.remove k (store cm)); [done|]. by apply Forall_inv_tail in Hr.
Qed.

Lemma keeps_call {T} (c : ApiCall) (answer : History -> Exn + T) :
  keeps (stored_since since) (call c answer).
Proof. by intros st. Qed.

Lemma keeps_flag b : keeps (stored_since since) (modify (set_cacheWarmed b)).
Proof. by intros st. Qed.

Lemma keeps_console_error l e : keeps (stored_since since) (console_error l e).
Proof. by intros st. Qed.

Lemma keeps_clearCache : keeps (stored_since since) clearCache.
Proof. intros st _. apply Forall_nil_2. Qed.

Lemma keeps_getStats : keeps (stored_since since) getStats.
Proof. by intros st. Qed.

Lemma keeps_put k v :
  keeps (stored_since since) (modify_cache (EntityStore.put now k v)).
Proof. intros st Hst. by apply since_put. Qed.

Lemma keeps_resolve k : keeps (stored_since since) (resolve env now k).
Proof.
  intros st Hst. rewrite resolve_unfold. unfold stored_since in *.
  pose proof (since_get now k (cache st) Hst) as Hg.
  destruct (EntityStore.get now k (cache st)) as [[v|] cm]; simpl in *; [done|].
  destruct (fetch_answer env k (history st)) as [e|[v|]]; simpl; try done.
  by apply since_put.
Qed.

Lemma keeps_hydrateTimeEntries entries :
  keeps (stored_since since) (hydrateTimeEntries env now entries).
Proof.
  apply keeps_mapM. intros e. unfold hydrateOne.
  apply keeps_bind; [apply keeps_resolve|]. intros w.
  destruct (project_id e) as [pid|]; [|apply keeps_ret].
  apply keeps_bind; [apply keeps_resolve|]. intros p.
  destruct (p ≫= entity_client_id) as [cid|]; [|apply keeps_ret].
  apply keeps_bind; [apply keeps_resolve|]. intros c. apply keeps_ret.
Qed.

Lemma keeps_warmCache d : keeps (stored_since since) (warmCache env now d).
Proof.
  unfold warmCache.
  apply keeps_bind; [apply keeps_call|]. intros wss.
  apply keeps_bind.
  { apply keeps_forM_. intros w. apply keeps_put. }
  intros _. apply keeps_forM_. intros w.
  apply keeps_bind; [apply keeps_call|]. intros ps.
  apply keeps_bind.
  { apply keeps_forM_. intros p. apply keeps_put. }
  intros _. apply keeps_bind; [apply keeps_call|]. intros cs.
  apply keeps_forM_. intros c. apply keeps_put.
Qed.

Lemma keeps_ensureCache : keeps (stored_since since) (ensureCache env now).
Proof.
  unfold ensureCache.
  apply keeps_bind; [apply keeps_get_state|]. intros st.
  destruct (cacheWarmed st); [apply keeps_ret|].
  apply keeps_try_catch.
  - apply keeps_bind; [apply keeps_warmCache|]. intros _. apply keeps_flag.
  - intros e. apply keeps_console_error.
Qed.

Lemma keeps_requireWorkspace args :
  keeps (stored_since since) (requireWorkspace env args).
Proof.
  unfold requireWorkspace. simpl. case_match; [apply keeps_ret | apply keeps_throw].
Qed.

Lemma keeps_stop_and_duration args :
  keeps (stored_since since) (stop_and_duration env args).
Proof.
  unfold stop_and_duration. repeat case_match; try apply keeps_ret;
    try apply keeps_throw.
  apply keeps_bind; [|intros iso; apply keeps_ret].
  unfold toISOString. case_match; [apply keeps_ret | apply keeps_throw].
Qed.

Lemma keeps_toISOString d : keeps (stored_since since) (toISOString env d).
Proof. destruct d; [apply keeps_ret | apply keeps_throw]. Qed.

Lemma keeps_fetch_entries args :
  keeps (stored_since since) (fetch_entries env now args).
Proof.
  unfold fetch_entries. repeat case_match; try apply keeps_call.
  apply keeps_bind; [apply keeps_lift|]. intros r. apply keeps_call.
Qed.

Lemma keeps_fetch_summary_entries args :
  keeps (stored_since since) (fetch_summary_entries env now args).
Proof.
  unfold fetch_summary_entries. repeat case_match; try apply keeps_call.
  apply keeps_bind; [apply keeps_lift|]. intros r. apply keeps_call.
Qed.

End StoredSince.

Ltac keeps_step :=
  lazymatch goal with
  | |- keeps _ (if ?b then _ else _) => destruct b
  | |- keeps _ (match ?x with _ => _ end) => destruct x
  | |- keeps _ _ =>
      first
        [ apply keeps_ret | apply keeps_throw | apply keeps_call
        | apply keeps_ensureCache | apply keeps_hydrateTimeEntries
        | apply keeps_warmCache | apply keeps_clearCache
        | apply keeps_getStats | apply keeps_get_state
        | apply keeps_requireWorkspace | apply keeps_stop_and_duration
        | apply keeps_fetch_entries | apply keeps_fetch_summary_entries
        | apply keeps_toISOString | apply keeps_flag
        | apply keeps_bind; [|intros ?] ]
  end.

(** A tool call at a time not before [since] leaves the entries of the
    cache stored since [since]. *)
Lemma keeps_tool_case env since now t args :
  since <= now -> keeps (stored_since since) (tool_case env now t args).
Proof.
  intros Hlater.
  destruct t; cbv beta iota zeta delta [tool_case]; repeat keeps_step; done.
Qed.

Lemma keeps_handler env since now name args :
  since <= now -> keeps (stored_since since) (handler env now name args).
Proof.
  intros Hlater. unfold handler. apply keeps_try_catch.
  - unfold switch. destruct (tool_of_name name) as [t|].
    + by apply keeps_tool_case.
    + apply keeps_throw.
  - intros e. apply keeps_ret.
Qed.

Lemma stored_since_run_calls env since calls st :
  Forall (fun c => since <= at_time c) calls ->
  stored_since since st ->
  stored_since since (run_calls env calls st).
Proof.
  unfold run_calls. revert st. induction calls as [|c calls IH]; intros st Hc Hst;
    [done|].
  apply Forall_cons in Hc as [Hc Hcs]. simpl. apply IH; [done|].
  by apply keeps_handler.
Qed.

(** C1, as the code has it: a create or update of a project or a
    client through its tool ([toggl_create_client],
    [toggl_create_project], [toggl_update_project]) that succeeds
    upstream is followed, before the case returns, by the clearing of
    the whole cache and the reset of [cacheWarmed]; whatever tool calls
    follow at times not before the write, every entry of the cache was
    stored at the time of the write or later, so that no read returns a
    cached value whose [storedAt] predates the write. *)
Theorem project_client_writes_invalidate (env : Env) (now : Z) (name : string)
    (args : Args) (st : Server) (r : CallToolResult) (st' : Server) :
  name ∈ ["toggl_create_client"; "toggl_create_project"; "toggl_update_project"] ->
  switch env now name args st = (inr r, st') ->
  (exists c, is_write c = true /\ history st' = history st ++ [c]) /\
  store (cache st') = [] /\
  cacheWarmed st' = false /\
  forall calls,
    Forall (fun c => now <= at_time c) calls ->
    stored_since now (run_calls env calls st') /\
    forall now' k v,
      (EntityStore.get now' k (cache (run_calls env calls st'))).1 = Some v ->
      exists e,
        EntityStore.find k (store (cache (run_calls env calls st'))) = Some e /\
        value e = v /\ now <= storedAt e.
Proof.
  intros Hname Hrun.
  assert (exists t, t ∈ [toggl_create_client; toggl_create_project; toggl_update_project]
                    /\ tool_case env now t args st = (inr r, st')) as (t & Ht & Hcase).
  { rewrite !elem_of_cons, elem_of_nil in Hname. unfold switch in Hrun.
    destruct Hname as [->|[->|[->|[]]]];
      [exists toggl_create_client | exists toggl_create_project
       | exists toggl_update_project];
      (split; [set_solver | exact Hrun]). }
  assert (resets t = true) as Hres.
  { rewrite !elem_of_cons, elem_of_nil in Ht. by destruct Ht as [->|[->|[->|[]]]]. }
  destruct (resets_clear env now t args st r st' Hres Hcase) as (Hs & Hw & _).
  split; [by apply (write_recorded env now t args st r st')|].
  split; [done|]. split; [done|]. intros calls Hcalls.
  assert (stored_since now (run_calls env calls st')) as Hsince.
  { apply stored_since_run_calls; [done|]. unfold stored_since. rewrite Hs.
    apply Forall_nil_2. }
  split; [done|]. intros now' k v Hget.
  destruct (get_Some now' k _ v Hget) as (e & Hf & Hv & _).
  exists e. split; [done|]. split; [done|].
  unfold EntityStore.find in Hf.
  destruct (List.find _ _) as [[k' e']|] eqn:Ef'; [|done].
  simpl in Hf. injection Hf as ->. apply List.find_some in Ef' as [Hin _].
  unfold stored_since in Hsince. rewrite Forall_forall in Hsince.
  apply (Hsince (k', e)). by apply list_elem_of_In.
Qed.

(** C1 as stated fails for the writes of time entries: after a warm at
    time 0, [toggl_update_time_entry] at time 10 writes upstream and
    then reads the names from entries stored at time 0, which stay in
    the cache. *)
Lemma time_entry_write_keeps_cache :
  history Fixture.updated
  = history Fixture.warmed ++
    [UpdateTimeEntry (VNum (Num 1)) (VNum (Num 100))
       [("description", VStr "Layout")]] /\
  lookups (cache Fixture.updated)
  = [LHit (KWorkspace, 1); LHit (KProject, 10); LHit (KClient, 5)] /\
  storedAt <$> (store (cache Fixture.updated)).*2 = [0; 0; 0] /\
  cacheWarmed Fixture.updated = true /\
  (EntityStore.get 11 (KProject, 10) (cache Fixture.updated)).1
  = Some (EProject Fixture.website).
Proof. vm_compute. repeat split; reflexivity. Qed.

(** ** [ensureCache] and the [cacheWarmed] flag *)

(** A warm starts with the fetch of the workspaces. *)
Lemma warmCache_attempt env now d st :
  exists rest,
    history (warmCache env now d st).2 = history st ++ ListWorkspaces :: rest.
Proof.
  unfold warmCache. unfold bind at 1. unfold call at 1.
  destruct (api_listWorkspaces env (history st)) as [e|wss].
  - by exists [].
  - match goal with |- context [ ?k (record_call ListWorkspaces st) ] =>
      assert (preserves grows k) as Hk
    end.
    { apply (preserves_bind grows).
      - apply (preserves_forM_ grows). intros w. apply (preserves_modify_cache grows).
      - intros _. apply (preserves_forM_ grows). intros w.
        apply (preserves_bind grows); [apply (preserves_call grows)|]. intros ps.
        apply (preserves_bind grows).
        { apply (preserves_forM_ grows). intros p. apply (preserves_modify_cache grows). }
        intros _. apply (preserves_bind grows); [apply (preserves_call grows)|].
        intros cs. apply (preserves_forM_ grows). intros c.
        apply (preserves_modify_cache grows). }
    destruct (Hk (record_call ListWorkspaces st)) as [rest Hrest].
    exists rest. rewrite Hrest. simpl. by rewrite <- app_assoc.
Qed.

Lemma ensureCache_cold env now st :
  cacheWarmed st = false ->
  ensureCache env now st =
  match warmCache env now (as_number (defaultWorkspaceId env)) st with
  | (inr _, st1) => (inr tt, set_cacheWarmed true st1)
  | (inl e, st1) => (inr tt, logged "Failed to warm cache:" e st1)
  end.
Proof.
  intros Hcold. unfold ensureCache, bind at 1, get_state. rewrite Hcold.
  unfold try_catch, bind, modify, console_error, modify.
  by destruct (warmCache env now _ st) as [[e|[]] st1].
Qed.

Lemma ensureCache_warm env now st :
  cacheWarmed st = true -> ensureCache env now st = (inr tt, st).
Proof.
  intros Hwarm. unfold ensureCache, bind, get_state. by rewrite Hwarm.
Qed.

Lemma warm_cache_sets env now args st r st' :
  tool_case env now toggl_warm_cache args st = (inr r, st') ->
  cacheWarmed st' = true.
Proof.
  cbv beta iota zeta delta [tool_case]. unfold getStats, bind, modify, get_state, ret.
  intros H. repeat case_match; simplify_eq. reflexivity.
Qed.

(** C9: a failure of the lazy warm in [ensureCache] is swallowed: it
    is written to the console, [ensureCache] returns, the cache is as
    the failed warm left it and [cacheWarmed] stays false, so that the
    next [ensureCache] starts a warm again; after a successful warm, by
    [ensureCache] or by [toggl_warm_cache], [cacheWarmed] is true,
    [ensureCache] does nothing, and the flag stays true through every
    tool but those that reset it: the creation of a client or a project,
    the update of a project and [toggl_clear_cache]. *)
Theorem ensureCache_lazy_warm (env : Env) (now : Z) (st : Server) :
  (cacheWarmed st = false ->
   forall e st1,
     warmCache env now (as_number (defaultWorkspaceId env)) st = (inl e, st1) ->
     ensureCache env now st = (inr tt, logged "Failed to warm cache:" e st1) /\
     cacheWarmed (logged "Failed to warm cache:" e st1) = false /\
     forall now', exists rest,
       history (ensureCache env now'
                  (logged "Failed to warm cache:" e st1)).2
       = history st1 ++ ListWorkspaces :: rest) /\
  (cacheWarmed st = false ->
   forall st1,
     warmCache env now (as_number (defaultWorkspaceId env)) st = (inr tt, st1) ->
     ensureCache env now st = (inr tt, set_cacheWarmed true st1) /\
     cacheWarmed (set_cacheWarmed true st1) = true) /\
  (forall args r st',
     tool_case env now toggl_warm_cache args st = (inr r, st') ->
     cacheWarmed st' = true) /\
  (cacheWarmed st = true ->
   ensureCache env now st = (inr tt, st) /\
   forall t args, resets t = false ->
     cacheWarmed (tool_case env now t args st).2 = true) /\
  (forall t args r st',
     resets t = true ->
     tool_case env now t args st = (inr r, st') ->
     cacheWarmed st' = false).
Proof.
  split_and!.
  - intros Hcold e st1 Hfail.
    assert (cacheWarmed st1 = false) as Hcold1.
    { pose proof (preserves_warmCache same_flags env now
                    (as_number (defaultWorkspaceId env)) st) as [Hw _].
      rewrite Hfail in Hw. simpl in Hw. congruence. }
    split; [by rewrite (ensureCache_cold env now st Hcold), Hfail|].
    split; [done|]. intros now'.
    rewrite (ensureCache_cold env now' (logged "Failed to warm cache:" e st1) Hcold1).
    destruct (warmCache_attempt env now' (as_number (defaultWorkspaceId env))
                (logged "Failed to warm cache:" e st1)) as [rest Hrest].
    exists rest.
    destruct (warmCache env now' _ (logged _ e st1)) as [[e'|u] st2];
      simpl in *; exact Hrest.
  - intros Hcold st1 Hok.
    by rewrite (ensureCache_cold env now st Hcold), Hok.
  - intros args r st'. apply warm_cache_sets.
  - intros Hwarm. split; [by apply ensureCache_warm|].
    intros t args Ht.
    apply (@preserves_tool_case stays_warm _ env now t args); [|done].
    intros Ht'. congruence.
  - intros t args r st' Ht Hrun.
    by destruct (resets_clear env now t args st r st' Ht Hrun) as (_ & ? & _).
Qed.

(** ** The statistics report *)

(** The check of all counters up to 500, by computation on the
    doubles. *)
Lemma rates_ok_500 : rates_ok 500 = true.
Proof. vm_cast_no_check (eq_refl true). Qed.

Lemma rates_ok_at n h m :
  rates_ok n = true -> 0 <= h -> 0 <= m -> h + m <= n -> rate_ok h m = true.
Proof.
  unfold rates_ok. intros Hall Hh Hm Hn.
  rewrite forallb_forall in Hall. specialize (Hall h).
  rewrite forallb_forall in Hall. apply Hall.
  - apply list_elem_of_In, elem_of_seqZ. lia.
  - apply list_elem_of_In, elem_of_seqZ. lia.
Qed.

Lemma hitRate_stats_of stats : hitRate stats = hitRate (stats_of (hits stats) (misses stats)).
Proof. reflexivity. Qed.

(** C7, as the code has it: [getStats] returns the counters and the
    size as they are and changes nothing; [toggl_cache_stats] reports
    them with [cache_warmed] and with [hit_rate], the text of
    [Math.round(hits / (hits + misses) * 100)] followed by a percent
    sign: zero when both counters are zero, and for counters up to 500
    lookups a whole percentage at most half a point away from the
    ratio. *)
Theorem cache_stats_report (env : Env) (now : Z) (args : Args) (st : Server) :
  (getStats st
   = (inr {| hits := stat_hits (cache st); misses := stat_misses (cache st);
             evictions := stat_evictions (cache st);
             size := Z.of_nat (length (store (cache st))) |}, st)) /\
  (exists stats,
     getStats st = (inr stats, st) /\
     (handler env now "toggl_cache_stats" args st
      = (inr (json_result (JObj
           (json_of_stats stats ++
            [("hit_rate", JStr (String.append (ToString (VNum (hitRate stats))) "%"));
             ("cache_warmed", JBool (cacheWarmed st))]))), st))) /\
  (forall stats, hits stats = 0 -> misses stats = 0 -> hitRate stats = Num 0) /\
  (forall stats,
     0 <= hits stats -> 0 <= misses stats ->
     0 < hits stats + misses stats <= 500 ->
     exists r, hitRate stats = Num r /\ (0 <= r <= 100) /\
               (2 * Z.abs (r * (hits stats + misses stats) - 100 * hits stats)
                <= hits stats + misses stats)).
Proof.
  split_and!.
  - reflexivity.
  - eexists. split; reflexivity.
  - intros stats Hh Hm. unfold hitRate. by rewrite Hh, Hm.
  - intros stats Hh Hm Hsum.
    pose proof (rates_ok_at 500 (hits stats) (misses stats) rates_ok_500 Hh Hm
                  ltac:(lia)) as Hok.
    unfold rate_ok in Hok. rewrite <- hitRate_stats_of in Hok.
    destruct (hitRate stats) as [r|]; [|done]. exists r.
    rewrite !andb_true_iff, !Z.leb_le in Hok. simpl in Hok. split; [done|]. lia.
Qed.

(** Far beyond that range the doubles give way: at these counters the
    ratio is below 81.5 percent and the report says 82. *)
Lemma hit_rate_large_counters :
  hitRate (stats_of 40750000000022 9250000000005) = Num 82 /\
  rate_ok 40750000000022 9250000000005 = false.
Proof. vm_compute. split; reflexivity. Qed.

(** C7 as stated fails on the rate: after one hit and two misses the
    report gives the rate as the text 33 percent, the rounded
    percentage, which is not the ratio 1/3. *)
Lemma hit_rate_is_rounded_percentage :
  (getStats Fixture.looked_up
   = (inr {| hits := 1; misses := 2; evictions := 0; size := 1 |},
      Fixture.looked_up)) /\
  (handler Fixture.online 1 "toggl_cache_stats" None Fixture.looked_up
   = (inr (json_result (JObj
        [("hits", JInt 1); ("misses", JInt 2); ("evictions", JInt 0);
         ("size", JInt 1); ("hit_rate", JStr "33%");
         ("cache_warmed", JBool false)])),
      Fixture.looked_up)) /\
  33 * (1 + 2) <> 100 * 1.
Proof. split; [|split]; [vm_compute; reflexivity .. | lia]. Qed.

(** ** The order of the summaries *)

Lemma insert_summary_perm x l : insert_summary x l ≡ₚ x :: l.
Proof.
  induction l as [|y l IH]; simpl; [done|].
  case_match; [done|]. rewrite IH. apply Permutation_swap.
Qed.

Lemma insert_summary_descending x l :
  descending l -> descending (insert_summary x l).
Proof.
  unfold descending. induction 1 as [|y l Hl IH Hy]; simpl.
  - repeat constructor.
  - destruct (total_seconds y <=? total_seconds x) eqn:E.
    + apply Z.leb_le in E. constructor; [by constructor|].
      constructor; [done|]. eapply Forall_impl; [exact Hy|]. simpl. intros; lia.
    + apply Z.leb_gt in E. constructor; [done|].
      rewrite insert_summary_perm. constructor; [lia|done].
Qed.

Lemma insert_summary_with_total t x l :
  descending l ->
  with_total t (insert_summary x l) = with_total t (x :: l).
Proof.
  unfold descending, with_total. induction 1 as [|y l Hl IH Hy]; simpl; [done|].
  destruct (total_seconds y <=? total_seconds x) eqn:E; [done|].
  apply Z.leb_gt in E. simpl. rewrite IH. simpl.
  destruct (total_seconds x =? t) eqn:Ex, (total_seconds y =? t) eqn:Ey; try done.
  apply Z.eqb_eq in Ex, Ey. lia.
Qed.

(** X17: the sort of the summaries is the stable sort of the runtime: the
    result goes from the largest total down, holds the same summaries,
    and those of one total keep the order they had. *)
Lemma sort_summaries_stable l :
  descending (sort_summaries l) /\
  sort_summaries l ≡ₚ l /\
  forall t, with_total t (sort_summaries l) = with_total t l.
Proof.
  induction l as [|x l (Hs & Hp & Ht)]; simpl.
  - split; [constructor|done].
  - split; [by apply insert_summary_descending|].
    split; [by rewrite insert_summary_perm, Hp|].
    intros t. rewrite insert_summary_with_total by done.
    unfold with_total in *. simpl. by rewrite Ht.
Qed.

(** ** The theorems at the fixture *)

(** An entry put at time 0 with a TTL of one hour is returned at time 5
    and gone at the hour. *)
Lemma get_after_put_witness :
  (EntityStore.get 5 (KProject, 10)
     (EntityStore.put 0 (KProject, 10) (EProject Fixture.website)
        (newCacheManager Fixture.config1000))).1
  = Some (EProject Fixture.website) /\
  (EntityStore.get 3600000 (KProject, 10)
     (EntityStore.put 0 (KProject, 10) (EProject Fixture.website)
        (newCacheManager Fixture.config1000))).1
  = None.
Proof.
  split.
  - apply (get_after_put 5 0 (KProject, 10) (EProject Fixture.website)
             (newCacheManager Fixture.config1000)).
    simpl. lia.
  - apply (get_after_put 3600000 0 (KProject, 10) (EProject Fixture.website)
             (newCacheManager Fixture.config1000)).
    simpl. lia.
Defined.

(** Three entries put into a store with room for two: one eviction, of
    the entry put first. *)
Lemma store_bounded_lru_witness :
  1 <= maxSize Fixture.config2 /\
  stat_evictions
    (run (put_ops (fun _ => 0) Fixture.entity_of
            [(KWorkspace, 1); (KProject, 10); (KClient, 5)])
         (newCacheManager Fixture.config2)) = 1 /\
  keys (store
    (run (put_ops (fun _ => 0) Fixture.entity_of
            [(KWorkspace, 1); (KProject, 10); (KClient, 5)])
         (newCacheManager Fixture.config2)))
  = [(KProject, 10); (KClient, 5)].
Proof.
  assert (1 <= maxSize Fixture.config2) as Hpos by (simpl; lia).
  split; [exact Hpos|].
  apply (proj1 (proj2 (store_bounded_lru Fixture.config2 Hpos))
           (fun _ => 0) Fixture.entity_of
           [(KWorkspace, 1); (KProject, 10); (KClient, 5)]).
  - apply (bool_decide_unpack _). vm_compute. exact I.
  - reflexivity.
Defined.

(** A project created at time 5 in the warmed server: the cache is
    empty and the flag reset when the case returns, and the entries
    that a call at time 6 leaves in the cache are stored since time 5
    (the warm of that call stores them at time 6). *)
Lemma project_client_writes_invalidate_witness :
  (store (cache (switch Fixture.online 5 "toggl_create_project"
                   Fixture.create_website Fixture.warmed).2) = [] /\
   cacheWarmed (switch Fixture.online 5 "toggl_create_project"
                  Fixture.create_website Fixture.warmed).2 = false /\
   stored_since 5
     (run_calls Fixture.online
        [{| at_time := 6; tool_name := "toggl_get_current_entry";
            arguments := None |}]
        (switch Fixture.online 5 "toggl_create_project"
           Fixture.create_website Fixture.warmed).2)) /\
  storedAt <$>
    (store (cache
       (run_calls Fixture.online
          [{| at_time := 6; tool_name := "toggl_get_current_entry";
              arguments := None |}]
          (switch Fixture.online 5 "toggl_create_project"
             Fixture.create_website Fixture.warmed).2))).*2
  = [6; 6; 6].
Proof.
  split; [|vm_compute; reflexivity].
  destruct (switch Fixture.online 5 "toggl_create_project"
              Fixture.create_website Fixture.warmed) as [[e|r] st'] eqn:E.
  - vm_compute in E. discriminate E.
  - simpl.
    assert ("toggl_create_project"
            ∈ ["toggl_create_client"; "toggl_create_project"; "toggl_update_project"])
      as Hname by (apply (bool_decide_unpack _); vm_compute; exact I).
    destruct (project_client_writes_invalidate Fixture.online 5
                "toggl_create_project" Fixture.create_website Fixture.warmed
                r st' Hname E) as (_ & Hs & Hw & Hlater).
    split; [exact Hs|]. split; [exact Hw|].
    apply (Hlater [{| at_time := 6; tool_name := "toggl_get_current_entry";
                      arguments := None |}]).
    apply Forall_singleton. simpl. lia.
Defined.

(** The account unreachable: the name of the project 10 is the
    placeholder, at the price of one miss. *)
Lemma name_lookup_degrades_witness :
  exists st',
    getProjectName Fixture.offline 0 10 (initialServer Fixture.offline)
    = (inr "Unknown", st') /\
    stat_misses (cache st') = 0 + 1 /\
    stat_hits (cache st') = 0.
Proof.
  apply (proj1 (proj1 (name_lookup_degrades Fixture.offline 0)
                  (getProjectName Fixture.offline 0) KProject
                  (list_elem_of_further _ _ _ (list_elem_of_here _ _)))
           10 (initialServer Fixture.offline) Fixture.unreachable);
    reflexivity.
Defined.

(** A batch with a workspace that upstream does not know: three
    entries hydrated, the placeholder for that workspace only. *)
Lemma hydrate_some_unresolvable :
  match (hydrateTimeEntries Fixture.online 0
           [Fixture.bare 1; Fixture.bare 2; Fixture.entry100]
           (initialServer Fixture.online)).1 with
  | inr hs =>
      map (fun h => (workspace_name h, project_name h, client_name h)) hs
      = [("Acme", None, None); ("Unknown", None, None);
         ("Acme", Some "Website", Some "Initech")]
  | inl _ => False
  end.
Proof. vm_compute. reflexivity. Qed.

(** The first call failing: the warm fails, is logged, and the next
    [ensureCache] starts with the fetch of the workspaces again. *)
Lemma ensureCache_lazy_warm_witness :
  ensureCache Fixture.flaky 0 (initialServer Fixture.flaky)
  = (inr tt, logged "Failed to warm cache:" Fixture.unreachable
               (record_call ListWorkspaces (initialServer Fixture.flaky))) /\
  exists rest,
    history (ensureCache Fixture.flaky 1
               (logged "Failed to warm cache:" Fixture.unreachable
                  (record_call ListWorkspaces (initialServer Fixture.flaky)))).2
    = [ListWorkspaces] ++ ListWorkspaces :: rest.
Proof.
  destruct (proj1 (ensureCache_lazy_warm Fixture.flaky 0 (initialServer Fixture.flaky))
              eq_refl Fixture.unreachable
              (record_call ListWorkspaces (initialServer Fixture.flaky)) eq_refl)
    as (Hrun & _ & Hnext).
  split; [exact Hrun | exact (Hnext 1)].
Defined.


(** * More of the tool cases *)

(** ** The guards of the tool cases *)

(** X2: a name outside the [switch] is answered with the error
    [Unknown tool: name]; the server stays as it is. *)
Lemma unknown_tool env now name args st :
  tool_of_name name = None ->
  handler env now name args st
  = (inr (error_result (Error env (String.append "Unknown tool: " name))), st).
Proof.
  intros Hname. rewrite handler_run. unfold switch. by rewrite Hname.
Qed.

Lemma unknown_tool_witness :
  handler Fixture.online 0 "toggl_delete_project" None (initialServer Fixture.online)
  = (inr (error_result
            (Error Fixture.online "Unknown tool: toggl_delete_project")),
     initialServer Fixture.online).
Proof.
  exact (unknown_tool Fixture.online 0 "toggl_delete_project" None
           (initialServer Fixture.online) eq_refl).
Defined.

(** X3: the nine cases that need a workspace answer with the workspace
    error when neither the argument nor the default gives one; nothing
    is sent upstream and the cache is not touched. *)
Lemma workspace_required env now name args st :
  name ∈ ["toggl_start_timer"; "toggl_create_entry"; "toggl_list_projects";
          "toggl_list_clients"; "toggl_create_client"; "toggl_create_project";
          "toggl_update_project"; "toggl_update_time_entry";
          "toggl_delete_time_entry"] ->
  truthy (workspaceId_of env args) = false ->
  handler env now name args st
  = (inr (error_result (Error env
       "Workspace ID required (set TOGGL_DEFAULT_WORKSPACE_ID or provide workspace_id)")),
     st).
Proof.
  intros Hname Hws. rewrite handler_run. unfold switch.
  rewrite !elem_of_cons, elem_of_nil in Hname.
  destruct Hname as [->|[->|[->|[->|[->|[->|[->|[->|[->|[]]]]]]]]]];
    match goal with |- context [tool_of_name ?n] =>
      let t := eval vm_compute in (tool_of_name n) in
      change (tool_of_name n) with t
    end;
    cbv beta iota zeta delta [tool_case];
    by rewrite (bind_inl _ _ _ _ _ (requireWorkspace_missing env args st Hws)).
Qed.

Lemma workspace_required_witness :
  handler Fixture.no_default 0 "toggl_list_projects" None
    (initialServer Fixture.no_default)
  = (inr (error_result (Error Fixture.no_default
       "Workspace ID required (set TOGGL_DEFAULT_WORKSPACE_ID or provide workspace_id)")),
     initialServer Fixture.no_default).
Proof.
  apply (workspace_required Fixture.no_default 0 "toggl_list_projects" None
           (initialServer Fixture.no_default)).
  - apply (bool_decide_unpack _). vm_compute. exact I.
  - reflexivity.
Defined.

(** X4: with a workspace at hand, a case that misses its required argument
    answers with the error of that argument; nothing is sent upstream. *)
Lemma required_argument env now name key text args st :
  (name, key, text)
  ∈ [("toggl_create_entry", "start", "start is required (ISO 8601 format)");
     ("toggl_create_client", "name", "Client name is required");
     ("toggl_create_project", "name", "Project name is required");
     ("toggl_update_project", "project_id", "Project ID is required");
     ("toggl_update_time_entry", "time_entry_id", "Time entry ID is required");
     ("toggl_delete_time_entry", "time_entry_id", "Time entry ID is required")] ->
  truthy (workspaceId_of env args) = true ->
  truthy (arg args key) = false ->
  handler env now name args st = (inr (error_result (Error env text)), st).
Proof.
  intros Hname Hws Harg. rewrite handler_run. unfold switch.
  rewrite !elem_of_cons, elem_of_nil in Hname.
  destruct Hname as [[= -> -> ->]|[[= -> -> ->]|[[= -> -> ->]|[[= -> -> ->]|
                    [[= -> -> ->]|[[= -> -> ->]|[]]]]]]];
    match goal with |- context [tool_of_name ?n] =>
      let t := eval vm_compute in (tool_of_name n) in
      change (tool_of_name n) with t
    end;
    cbv beta iota zeta delta [tool_case];
    rewrite (bind_inr _ _ _ _ _ (requireWorkspace_ok env args st Hws));
    by rewrite Harg.
Qed.

Lemma required_argument_witness :
  handler Fixture.online 0 "toggl_create_project" None (initialServer Fixture.online)
  = (inr (error_result (Error Fixture.online "Project name is required")),
     initialServer Fixture.online).
Proof.
  apply (required_argument Fixture.online 0 "toggl_create_project" "name"
           "Project name is required" None (initialServer Fixture.online)).
  - apply (bool_decide_unpack _). vm_compute. exact I.
  - reflexivity.
  - reflexivity.
Defined.

(** X13: [toggl_clear_cache] empties the cache, resets the
    [cacheWarmed] flag, sends nothing upstream and answers with its
    message, whatever the arguments and the server. *)
Lemma clear_cache_tool env now args st :
  exists st',
    handler env now "toggl_clear_cache" args st
    = (inr (json_result (JObj
         [("success", JBool true);
          ("message", JStr "Cache cleared successfully")])), st') /\
    store (cache st') = [] /\
    cacheWarmed st' = false /\
    history st' = history st.
Proof. eexists. split; [reflexivity|]. by repeat split. Qed.

(** X8: without a running timer, [toggl_stop_timer] and
    [toggl_get_current_entry] ask upstream for the current entry and
    nothing else: no timer is stopped and the cache is not read. *)
Lemma no_running_timer env now args st :
  api_getCurrentTimeEntry env (history st) = inr None ->
  handler env now "toggl_stop_timer" args st
  = (inr (json_result (JObj
       [("success", JBool false);
        ("message", JStr "No timer currently running")])),
     record_call GetCurrentTimeEntry st) /\
  handler env now "toggl_get_current_entry" args st
  = (inr (json_result (JObj
       [("running", JBool false);
        ("message", JStr "No timer currently running")])),
     record_call GetCurrentTimeEntry st).
Proof.
  intros Hnone. split; rewrite handler_run; unfold switch;
    match goal with |- context [tool_of_name ?n] =>
      let t := eval vm_compute in (tool_of_name n) in
      change (tool_of_name n) with t
    end;
    cbv beta iota zeta delta [tool_case]; unfold bind, call; by rewrite Hnone.
Qed.

(** X12: [toggl_delete_time_entry], with a workspace and an entry id: the
    deletion is the one call sent upstream and the cache is not
    touched; when upstream accepts it the answer names the entry. *)
Lemma delete_time_entry_tool env now args st :
  truthy (workspaceId_of env args) = true ->
  truthy (arg args "time_entry_id") = true ->
  let st' := record_call
               (DeleteTimeEntry (workspaceId_of env args) (arg args "time_entry_id"))
               st in
  (handler env now "toggl_delete_time_entry" args st).2 = st' /\
  (api_deleteTimeEntry env (workspaceId_of env args) (arg args "time_entry_id")
     (history st) = inr tt ->
   (handler env now "toggl_delete_time_entry" args st).1
   = inr (json_result (JObj
       [("success", JBool true);
        ("message", JStr (String.append "Time entry "
                            (String.append (ToString (arg args "time_entry_id"))
                                           " deleted")))]))) /\
  (forall e,
     api_deleteTimeEntry env (workspaceId_of env args) (arg args "time_entry_id")
       (history st) = inl e ->
     (handler env now "toggl_delete_time_entry" args st).1 = inr (error_result e)).
Proof.
  intros Hws Hid st'. rewrite handler_run. unfold switch.
  change (tool_of_name "toggl_delete_time_entry") with (Some toggl_delete_time_entry).
  cbv beta iota zeta delta [tool_case].
  rewrite (bind_inr _ _ _ _ _ (requireWorkspace_ok env args st Hws)).
  rewrite Hid. cbn [negb]. unfold bind, call. simpl.
  destruct (api_deleteTimeEntry env _ _ (history st)) as [e|[]]; simpl;
    split_and!; try done; intros; by simplify_eq.
Qed.



(** ** The tools that the server lists *)

Lemma find_name_is_Some {A} (l : list (string * A)) name :
  is_Some (snd <$> List.find (fun p => String.eqb p.1 name) l) <-> name ∈ l.*1.
Proof.
  induction l as [|[n a] l IH]; simpl.
  - rewrite elem_of_nil. split; [by intros [? ?]|done].
  - rewrite elem_of_cons. destruct (String.eqb n name) eqn:E.
    + apply String.eqb_eq in E as ->. simpl. split; [by left|by eexists].
    + apply String.eqb_neq in E. rewrite IH. split; [by right|].
      by intros [->|?].
Qed.

Ltac pick_name l :=
  match l with
  | (?n, _) :: ?l' =>
      first [ exists n;
              split; [apply (bool_decide_unpack _); vm_compute; exact I | reflexivity]
            | pick_name l' ]
  end.

(** X1: the tools that the server lists are the cases of the [switch], one
    case each: a listed tool is never answered with [Unknown tool], and
    every case can be reached by a listed name. *)
Lemma listed_tools_have_cases :
  NoDup tools /\
  (forall name, name ∈ tools <-> is_Some (tool_of_name name)) /\
  (forall t, exists name, name ∈ tools /\ tool_of_name name = Some t).
Proof.
  split_and!.
  - apply (bool_decide_unpack _). vm_compute. exact I.
  - intros name. unfold tool_of_name. rewrite find_name_is_Some. reflexivity.
  - intros t. destruct t;
      let l := eval unfold tool_names in tool_names in pick_name l.
Qed.

(** ** The masked e-mail address of [toggl_check_auth] *)

Lemma append_nil s : String.append "" s = s.
Proof. reflexivity. Qed.

Lemma append_cons a s t : String.append (String a s) t = String a (String.append s t).
Proof. reflexivity. Qed.

Lemma prefix_nil s : String.prefix "" s = true.
Proof. by destruct s. Qed.

Lemma index_cons sep a s :
  String.index 0 sep (String a s)
  = if String.prefix sep (String a s) then Some 0%nat
    else match String.index 0 sep s with
         | Some n => Some (S n)
         | None => None
         end.
Proof. reflexivity. Qed.

Lemma prefix_at a s t :
  String.prefix "@" (String a s) = String.prefix "@" (String a t).
Proof.
  cbn [String.prefix]. destruct (Ascii.ascii_dec _ a); [|done].
  by rewrite !prefix_nil.
Qed.

Lemma index_at_sign user rest :
  String.index 0 "@" user = None ->
  String.index 0 "@" (String.append user (String.append "@" rest))
  = Some (String.length user).
Proof.
  induction user as [|a user IH]; intros Hnone.
  - rewrite append_nil, append_cons, append_nil, index_cons.
    by rewrite (proj2 (String.prefix_correct _ _)) by (by destruct rest).
  - rewrite append_cons, index_cons. rewrite index_cons in Hnone.
    rewrite (prefix_at a _ user).
    destruct (String.prefix "@" (String a user)); [done|].
    destruct (String.index 0 "@" user) eqn:E; [done|]. by rewrite IH.
Qed.

Lemma substring_whole s : String.substring 0 (String.length s) s = s.
Proof. induction s as [|a s IH]; simpl; [done|by rewrite IH]. Qed.

Lemma substring_prefix user rest :
  String.substring 0 (String.length user) (String.append user rest) = user.
Proof.
  induction user as [|a user IH].
  - rewrite append_nil. by destruct rest.
  - rewrite append_cons. simpl. by rewrite IH.
Qed.

Lemma substring_suffix user rest :
  String.substring (String.length user) (String.length rest) (String.append user rest)
  = rest.
Proof.
  induction user as [|a user IH].
  - rewrite append_nil. apply substring_whole.
  - rewrite append_cons. simpl. exact IH.
Qed.

Lemma length_append s t :
  String.length (String.append s t) = (String.length s + String.length t)%nat.
Proof.
  induction s as [|a s IH]; [by rewrite append_nil|].
  rewrite append_cons. simpl. by rewrite IH.
Qed.

Lemma split_first_at user rest :
  String.index 0 "@" user = None ->
  split_first "@" (String.append user (String.append "@" rest)) = (user, Some rest).
Proof.
  intros Hnone. unfold split_first. rewrite (index_at_sign user rest Hnone).
  rewrite substring_prefix. f_equal. f_equal.
  rewrite length_append, append_cons, append_nil. simpl String.length.
  replace (String.length user + S (String.length rest) - S (String.length user))%nat
    with (String.length rest) by lia.
  clear Hnone. induction user as [|a user IH].
  - rewrite append_nil. simpl. apply substring_whole.
  - rewrite append_cons. simpl. exact IH.
Qed.

Lemma split_first_none s :
  String.index 0 "@" s = None -> split_first "@" s = (s, None).
Proof. unfold split_first. by intros ->. Qed.

(** X19: [maskEmail]: no address gives none; a text without [@] is all
    masked; of [user@domain] the domain is kept and the user is masked:
    stars for one or two characters, and otherwise its first and last
    characters around three stars. *)
Lemma maskEmail_cases :
  maskEmail None = None /\
  maskEmail (Some "") = None /\
  (forall e, e <> "" -> String.index 0 "@" e = None ->
             maskEmail (Some e) = Some "***") /\
  (forall user domain,
     String.index 0 "@" user = None -> String.index 0 "@" domain = None ->
     domain <> "" ->
     maskEmail (Some (String.append user (String.append "@" domain)))
     = Some (String.append
               (if (String.length user <=? 2)%nat
                then repeat_string (String.length user) "*"
                else String.append (String.substring 0 1 user)
                       (String.append "***"
                          (String.substring (String.length user - 1) 1 user)))
               (String.append "@" domain))) /\
  maskEmail (Some "jo@example.com") = Some "**@example.com" /\
  maskEmail (Some "alice@example.com") = Some "a***e@example.com" /\
  maskEmail (Some "@example.com") = Some "@example.com".
Proof.
  split_and!; try reflexivity.
  - intros e He Hnone. unfold maskEmail.
    rewrite (proj2 (String.eqb_neq e "") He), (split_first_none e Hnone). reflexivity.
  - intros user domain Hu Hd Hne. unfold maskEmail.
    assert (String.append user (String.append "@" domain) <> "") as Hne'.
    { by destruct user. }
    rewrite (proj2 (String.eqb_neq _ "") Hne'), (split_first_at user domain Hu).
    simpl from_option. rewrite (split_first_none domain Hd). simpl fst.
    by rewrite (proj2 (String.eqb_neq domain "") Hne).
Qed.

(** ** The totals of the summaries *)





(** ** The filters of [toggl_get_time_entries] *)

(** X16: the entries that pass the filters are those of the given workspace
    and of the given project, where one is given, in the order they
    came. *)
Lemma filters_select args entries :
  filter_project args (filter_workspace args entries) `sublist_of` entries /\
  forall e,
    e ∈ filter_project args (filter_workspace args entries) <->
    e ∈ entries /\
    (truthy (arg args "workspace_id") = true ->
     arg args "workspace_id" = VNum (Num (workspace_id e))) /\
    (truthy (arg args "project_id") = true ->
     exists p, project_id e = Some p /\ arg args "project_id" = VNum (Num p)).
Proof.
  unfold filter_project, filter_workspace. split.
  - destruct (truthy (arg args "workspace_id")), (truthy (arg args "project_id"));
      repeat (etrans; [apply sublist_filter|]); done.
  - intros e.
    assert (forall n v, strict_eq_num n v = true <-> v = VNum (Num n)) as Hnum.
    { intros n [| |b|[z|]|s|l]; simpl; split; try done.
      - intros ->%Z.eqb_eq. done.
      - intros [= ->]. apply Z.eqb_refl. }
    assert (forall v, truthy v = true ->
              strict_eq_opt (project_id e) v = true <->
              exists p, project_id e = Some p /\ v = VNum (Num p)) as Hopt.
    { intros v Hv. unfold strict_eq_opt. destruct (project_id e) as [p|].
      - rewrite Hnum. split; [by exists p|]. by intros (p' & [= <-] & ->).
      - split; [|by intros (p & ? & _)]. intros Hu%bool_decide_eq_true.
        by rewrite Hu in Hv. }
    destruct (truthy (arg args "workspace_id")) eqn:Ew,
             (truthy (arg args "project_id")) eqn:Ep;
      rewrite ?list_elem_of_filter, ?Hnum, ?(Hopt _ Ep); naive_solver.
Qed.

(** ** Listing and warming *)

(** X15: [toggl_list_workspaces] asks upstream once and does not use the
    cache: the answer counts the workspaces it got, a failure is
    reported as the error. *)
Lemma list_workspaces_tool env now args st :
  (handler env now "toggl_list_workspaces" args st).2
  = record_call GetWorkspaces st /\
  (forall e, api_getWorkspaces env (history st) = inl e ->
     (handler env now "toggl_list_workspaces" args st).1 = inr (error_result e)) /\
  (forall wss, api_getWorkspaces env (history st) = inr wss ->
     (handler env now "toggl_list_workspaces" args st).1
     = inr (json_result (JObj
         [("count", JInt (Z.of_nat (length wss)));
          ("workspaces",
           JArr ((fun ws => JObj
                    [("id", JInt (ws_id ws));
                     ("name", JStr (ws_name ws));
                     ("premium", json_of_jsval (ws_premium ws));
                     ("default_currency", json_of_jsval (ws_default_currency ws))])
                 <$> wss))]))).
Proof.
  rewrite handler_run. unfold switch.
  change (tool_of_name "toggl_list_workspaces") with (Some toggl_list_workspaces).
  cbv beta iota zeta delta [tool_case]. unfold bind, call. simpl.
  destruct (api_getWorkspaces env (history st)) as [e|wss]; simpl;
    split_and!; try done; intros; by simplify_eq.
Qed.

(** X14: [toggl_warm_cache] starts a warm whether the cache is warmed or
    not, and an answer without error leaves [cacheWarmed] set. *)
Lemma warm_cache_tool env now args st :
  (exists rest,
     history (handler env now "toggl_warm_cache" args st).2
     = history st ++ ListWorkspaces :: rest) /\
  (forall r st',
     switch env now "toggl_warm_cache" args st = (inr r, st') ->
     cacheWarmed st' = true).
Proof.
  split.
  - rewrite handler_run. simpl. unfold switch.
    change (tool_of_name "toggl_warm_cache") with (Some toggl_warm_cache).
    cbv beta iota zeta delta [tool_case].
    destruct (warmCache_attempt env now (as_number (workspaceId_of env args)) st)
      as [rest Hrest].
    unfold bind at 1.
    destruct (warmCache env now _ st) as [[e|[]] st1]; simpl in *; [by exists rest|].
    exists rest. exact Hrest.
  - intros r st'. unfold switch.
    change (tool_of_name "toggl_warm_cache") with (Some toggl_warm_cache).
    apply warm_cache_sets.
Qed.

(** A start with a duration of zero, at the fixture. *)
Lemma create_entry_zero_duration_witness :
  handler Fixture.online 0 "toggl_create_entry" Fixture.create_zero
    (initialServer Fixture.online)
  = (inr (error_result
            (Error Fixture.online "Either stop or duration is required")),
     initialServer Fixture.online).
Proof.
  exact (create_entry_zero_duration Fixture.online 0 Fixture.create_zero
           (initialServer Fixture.online) eq_refl eq_refl eq_refl eq_refl).
Defined.

(** ** The calls that the writing cases send *)

(** A call sent first, whatever follows it. *)
Lemma sends_first {A B} (c : ApiCall) (answer : History -> Exn + A)
    (k : A -> M B) (st : Server) :
  (forall a, preserves grows (k a)) ->
  exists rest,
    history (bind (call c answer) k st).2 = history st ++ c :: rest.
Proof.
  intros Hk. unfold bind, call. destruct (answer (history st)) as [e|a].
  - by exists [].
  - destruct (Hk a (record_call c st)) as [rest Hrest].
    exists rest. rewrite Hrest. simpl. by rewrite <- app_assoc.
Qed.

(** X6: [toggl_start_timer], with a workspace at hand, starts the timer
    upstream with the arguments as they came, before the cache is
    warmed or read. *)
Lemma start_timer_sends env now args st :
  truthy (workspaceId_of env args) = true ->
  exists rest,
    history (handler env now "toggl_start_timer" args st).2
    = history st ++
      StartTimer (workspaceId_of env args) (arg args "description")
        (arg args "project_id") (arg args "task_id") (arg args "tags") :: rest.
Proof.
  intros Hws. rewrite handler_run. simpl. unfold switch.
  change (tool_of_name "toggl_start_timer") with (Some toggl_start_timer).
  cbv beta iota zeta delta [tool_case].
  rewrite (bind_inr _ _ _ _ _ (requireWorkspace_ok env args st Hws)).
  apply sends_first. intros entry. repeat frame_step.
Qed.

Lemma start_timer_sends_witness :
  exists rest,
    history (handler Fixture.online 0 "toggl_start_timer" Fixture.start_layout
               (initialServer Fixture.online)).2
    = history (initialServer Fixture.online) ++
      StartTimer (VNum (Num 1)) (VStr "Layout") VUndefined VUndefined VUndefined
      :: rest.
Proof.
  exact (start_timer_sends Fixture.online 0 Fixture.start_layout
           (initialServer Fixture.online) eq_refl).
Defined.

(** X7: [toggl_stop_timer] stops the entry that upstream reports as
    running, in the workspace of that entry. *)
Lemma stop_timer_stops env now args st current :
  api_getCurrentTimeEntry env (history st) = inr (Some current) ->
  exists rest,
    history (handler env now "toggl_stop_timer" args st).2
    = history st ++
      GetCurrentTimeEntry :: StopTimer (workspace_id current) (id current) :: rest.
Proof.
  intros Hcur. rewrite handler_run. simpl. unfold switch.
  change (tool_of_name "toggl_stop_timer") with (Some toggl_stop_timer).
  cbv beta iota zeta delta [tool_case].
  unfold bind at 1. unfold call at 1. rewrite Hcur.
  match goal with |- context [bind (call ?c ?a) ?k ?s] =>
    destruct (sends_first c a k s) as [rest Hrest]
  end.
  { intros stopped. repeat frame_step. }
  exists rest. rewrite Hrest. simpl. by rewrite <- app_assoc.
Qed.

Lemma stop_timer_stops_witness :
  exists rest,
    history (handler Fixture.online 0 "toggl_stop_timer" None
               (initialServer Fixture.online)).2
    = history (initialServer Fixture.online) ++
      GetCurrentTimeEntry :: StopTimer 1 100 :: rest.
Proof.
  exact (stop_timer_stops Fixture.online 0 None (initialServer Fixture.online)
           Fixture.entry100 eq_refl).
Defined.

(** X9: [toggl_update_time_entry], with a workspace and an entry id, sends
    upstream the fields that were given, and those only, before the
    cache is warmed or read. *)
Lemma update_time_entry_sends env now args st :
  truthy (workspaceId_of env args) = true ->
  truthy (arg args "time_entry_id") = true ->
  exists updates rest,
    history (handler env now "toggl_update_time_entry" args st).2
    = history st ++
      UpdateTimeEntry (workspaceId_of env args) (arg args "time_entry_id") updates
      :: rest /\
    forall k v,
      (k, v) ∈ updates <->
      k ∈ ["description"; "project_id"; "task_id"; "billable";
           "start"; "stop"; "duration"; "tags"] /\
      v = arg args k /\ v <> VUndefined.
Proof.
  intros Hws Hid. rewrite handler_run. simpl. unfold switch.
  change (tool_of_name "toggl_update_time_entry") with (Some toggl_update_time_entry).
  cbv beta iota zeta delta [tool_case].
  rewrite (bind_inr _ _ _ _ _ (requireWorkspace_ok env args st Hws)).
  rewrite Hid. cbn [negb].
  match goal with |- context [bind (call ?c ?a) ?k ?s] =>
    destruct (sends_first c a k s) as [rest Hrest]
  end.
  { intros updated. repeat frame_step. }
  eexists _, rest. split; [exact Hrest|].
  intros k v. unfold updates_of. rewrite list_elem_of_omap. split.
  - intros (k' & Hk & Hv). case_bool_decide; [done|]. by simplify_eq.
  - intros (Hk & -> & Hv). exists k. split; [done|]. by rewrite bool_decide_false.
Qed.

Lemma update_time_entry_sends_witness :
  exists updates rest,
    history (handler Fixture.online 10 "toggl_update_time_entry" Fixture.update100
               Fixture.warmed).2
    = history Fixture.warmed ++
      UpdateTimeEntry (VNum (Num 1)) (VNum (Num 100)) updates :: rest /\
    forall k v,
      (k, v) ∈ updates <->
      k ∈ ["description"; "project_id"; "task_id"; "billable";
           "start"; "stop"; "duration"; "tags"] /\
      v = arg Fixture.update100 k /\ v <> VUndefined.
Proof.
  exact (update_time_entry_sends Fixture.online 10 Fixture.update100
           Fixture.warmed eq_refl eq_refl).
Defined.

(** No timer running, at the fixture. *)
Lemma no_running_timer_witness :
  handler Fixture.idle 0 "toggl_stop_timer" None (initialServer Fixture.idle)
  = (inr (json_result (JObj
       [("success", JBool false);
        ("message", JStr "No timer currently running")])),
     record_call GetCurrentTimeEntry (initialServer Fixture.idle)) /\
  handler Fixture.idle 0 "toggl_get_current_entry" None (initialServer Fixture.idle)
  = (inr (json_result (JObj
       [("running", JBool false);
        ("message", JStr "No timer currently running")])),
     record_call GetCurrentTimeEntry (initialServer Fixture.idle)).
Proof.
  exact (no_running_timer Fixture.idle 0 None (initialServer Fixture.idle) eq_refl).
Defined.

(** The entry 100 deleted in the warmed server: the cache keeps its
    three entries. *)
Lemma delete_time_entry_tool_witness :
  (handler Fixture.online 10 "toggl_delete_time_entry" Fixture.delete100
     Fixture.warmed).2
  = record_call (DeleteTimeEntry (VNum (Num 1)) (VNum (Num 100))) Fixture.warmed /\
  (handler Fixture.online 10 "toggl_delete_time_entry" Fixture.delete100
     Fixture.warmed).1
  = inr (json_result (JObj
      [("success", JBool true); ("message", JStr "Time entry 100 deleted")])).
Proof.
  destruct (delete_time_entry_tool Fixture.online 10 Fixture.delete100
              Fixture.warmed eq_refl eq_refl) as (Hst & Hok & _).
  split; [exact Hst | exact (Hok eq_refl)].
Defined.
